(** * CodeAtlas backend (app.py): a shallow embedding and its properties

    The Flask handlers of [app.py] are embedded as functions over
    - Python strings as [string] (characters are code points below 256),
    - parsed JSON bodies as [json] with Python's truthiness,
    - the two upstreams (GitHub over [requests.get], the generative model
      over [model.generate_content]) as oracles that see the log of the
      calls made so far, every call being appended to that log,
    - the relational store as the list of its rows. *)

From Stdlib Require Import String Ascii List ZArith Lia Bool.
From Stdlib Require Import Permutation Sorted DecimalString.
Import ListNotations.

Local Open Scope string_scope.
Local Open Scope Z_scope.

(* ------------------------------------------------------------------ *)
(** ** Python values *)

(** What [request.get_json()] and [response.json()] return.  Numbers are
    the integers; a dict keeps its items in insertion order. *)
#[warnings="-register-all"]
Inductive json : Type :=
| JNull
| JBool (b : bool)
| JNum (n : Z)
| JStr (s : string)
| JArr (items : list json)
| JObj (fields : list (string * json)).

(** Python truthiness, as used by [if x:], [not x], [x and y], [x or y]. *)
Definition truthy (v : json) : bool :=
  match v with
  | JNull => false
  | JBool b => b
  | JNum n => negb (n =? 0)
  | JStr s => negb (s =? "")%string
  | JArr l => match l with [] => false | _ => true end
  | JObj l => match l with [] => false | _ => true end
  end.

(** Truthiness of an [error] slot holding [None] or a message. *)
Definition truthy_str (e : option string) : bool :=
  match e with Some s => negb (s =? "")%string | None => false end.

Fixpoint assoc (k : string) (l : list (string * json)) : option json :=
  match l with
  | [] => None
  | (k', v) :: l' => if (k =? k')%string then Some v else assoc k l'
  end.

(** Exceptions that the handlers can meet.  [Raised] stands for whatever
    a library call raises by itself (connection errors, timeouts, decoding
    errors, model failures), with its message. *)
Inductive exn : Type :=
| HTTPError (status_code : Z) (text : string)
| KeyError (key : string)
| TypeError (text : string)
| AttributeError (text : string)
| OverflowError (text : string)
| Raised (text : string).

(** [d[k]] *)
Definition subscript (d : json) (k : string) : exn + json :=
  match d with
  | JObj l => match assoc k l with Some v => inr v | None => inl (KeyError k) end
  | _ => inl (TypeError "object is not subscriptable by a string key")
  end.

(** [d.get(k)] and [d.get(k, default)]: [None] (here [JNull]) by default. *)
Definition dict_get (d : json) (k : string) (default : json) : exn + json :=
  match d with
  | JObj l => match assoc k l with Some v => inr v | None => inr default end
  | _ => inl (AttributeError "object has no attribute 'get'")
  end.

(** [for x in v]: the items of a list, the keys of a dict, the characters
    of a string; anything else is not iterable. *)
Definition chars (s : string) : list json :=
  map (fun c => JStr (String c EmptyString)) (list_ascii_of_string s).

Definition py_iter (v : json) : exn + list json :=
  match v with
  | JArr l => inr l
  | JObj l => inr (map (fun kv => JStr (fst kv)) l)
  | JStr s => inr (chars s)
  | _ => inl (TypeError "object is not iterable")
  end.

(** [x == 'literal'] for a JSON value [x]. *)
Definition eq_str (v : json) (lit : string) : bool :=
  match v with JStr s => (s =? lit)%string | _ => false end.

(** Decimal rendering of an integer, as [str(n)] and [f"{n}"] give it. *)
Definition str_of_Z (n : Z) : string := NilZero.string_of_int (Z.to_int n).

(** [sep.join(l)] *)
Definition join (sep : string) (l : list string) : string := String.concat sep l.

(* ------------------------------------------------------------------ *)
(** ** str.strip() *)

(** [str.isspace] on the code points below 256. *)
Definition is_space (c : ascii) : bool :=
  let n := nat_of_ascii c in
  ((9 <=? n) && (n <=? 13) || (28 <=? n) && (n <=? 32)
   || (n =? 133) || (n =? 160))%nat.

Fixpoint lstrip (s : string) : string :=
  match s with
  | String c s' => if is_space c then lstrip s' else s
  | EmptyString => EmptyString
  end.

Fixpoint rstrip (s : string) : string :=
  match s with
  | String c s' =>
      match rstrip s' with
      | EmptyString => if is_space c then EmptyString else String c EmptyString
      | r => String c r
      end
  | EmptyString => EmptyString
  end.

Definition strip (s : string) : string := rstrip (lstrip s).

(* ------------------------------------------------------------------ *)
(** ** The fragment of [re] that [parse_github_url] uses *)

Module Re.

Inductive charset : Type :=
| Only (c : ascii)       (* a literal character, also an escaped one *)
| AnyBut (c : ascii).    (* [^c] *)

Definition mem (p : charset) (a : ascii) : bool :=
  match p with
  | Only c => Ascii.eqb a c
  | AnyBut c => negb (Ascii.eqb a c)
  end.

Inductive regex : Type :=
| Eps
| Chr (p : charset)
| Plus (p : charset)               (* greedy p+ *)
| Group (i : nat) (r : regex)      (* the i-th capturing group *)
| Cat (r1 r2 : regex).

(** The groups of a match, by number. *)
Definition captures := list (nat * string).

Fixpoint group (i : nat) (m : captures) : option string :=
  match m with
  | [] => None
  | (j, s) :: m' => if Nat.eqb i j then Some s else group i m'
  end.

(** The first [n] characters of [s]. *)
Fixpoint take (n : nat) (s : string) : string :=
  match n, s with
  | S n', String c s' => String c (take n' s')
  | _, _ => EmptyString
  end.

Section Matcher.
Context {A : Type}.

(** Greedy repetition with backtracking: the longest run first, then
    ever shorter ones, until the continuation accepts. *)
Fixpoint star (p : charset) (s : string) (k : string -> option A) : option A :=
  match s with
  | String a s' =>
      if mem p a then
        match star p s' k with
        | Some r => Some r
        | None => k s
        end
      else k s
  | EmptyString => k s
  end.

Definition plus (p : charset) (s : string) (k : string -> option A) : option A :=
  match s with
  | String a s' => if mem p a then star p s' k else None
  | EmptyString => None
  end.

(** [rmatch r s m k]: match [r] at the start of [s]; the continuation
    receives what is left of the subject and the groups closed so far. *)
Fixpoint rmatch (r : regex) (s : string) (m : captures)
         (k : string -> captures -> option A) : option A :=
  match r with
  | Eps => k s m
  | Chr p =>
      match s with
      | String a s' => if mem p a then k s' m else None
      | EmptyString => None
      end
  | Plus p => plus p s (fun s' => k s' m)
  | Group i r' =>
      rmatch r' s m
        (fun s' m' => k s' ((i, take (String.length s - String.length s') s) :: m'))
  | Cat r1 r2 => rmatch r1 s m (fun s' m' => rmatch r2 s' m' k)
  end.
End Matcher.

Definition match_here (r : regex) (s : string) : option captures :=
  rmatch r s [] (fun _ m => Some m).

(** [re.search]: the match at the leftmost position that has one. *)
Fixpoint search (r : regex) (s : string) : option captures :=
  match match_here r s with
  | Some m => Some m
  | None =>
      match s with
      | String _ s' => search r s'
      | EmptyString => None
      end
  end.

(** A run of literal characters. *)
Fixpoint lit (s : string) : regex :=
  match s with
  | String c s' => Cat (Chr (Only c)) (lit s')
  | EmptyString => Eps
  end.

End Re.

(* ------------------------------------------------------------------ *)
(** ** parse_github_url *)

Definition slash : ascii := "/"%char.

(** r"https://github\.com/([^/]+)/([^/]+)" *)
Definition pattern : Re.regex :=
  Re.Cat (Re.lit "https://github.com/")
    (Re.Cat (Re.Group 1 (Re.Plus (Re.AnyBut slash)))
       (Re.Cat (Re.Chr (Re.Only slash))
          (Re.Group 2 (Re.Plus (Re.AnyBut slash))))).

Definition parse_github_url (url : string) : option string * option string :=
  match Re.search pattern url with
  | Some m => (Re.group 1 m, option_map strip (Re.group 2 m))
  | None => (None, None)
  end.

(* ------------------------------------------------------------------ *)
(** ** datetime *)

(** A [datetime] is the number of microseconds since 0001-01-01T00:00:00,
    the first instant Python's [datetime] can hold. *)
Definition datetime := Z.

Definition us_per_day : Z := 86400000000.

(** [timedelta(days=n)] *)
Definition timedelta_days (n : Z) : Z := n * us_per_day.

(** [date.toordinal()]: day 1 is 0001-01-01. *)
Definition toordinal (t : datetime) : Z := t / us_per_day + 1.

Definition DI400Y : Z := 146097.
Definition DI100Y : Z := 36524.
Definition DI4Y : Z := 1461.

Definition days_in_month (leap : bool) (month : Z) : Z :=
  if month =? 2 then (if leap then 29 else 28)
  else if (month =? 4) || (month =? 6) || (month =? 9) || (month =? 11) then 30
  else 31.

(** Days of the year before the first of [month], in a common year. *)
Definition days_before_month (month : Z) : Z :=
  nth (Z.to_nat month) [0; 0; 31; 59; 90; 120; 151; 181; 212; 243; 273; 304; 334] 0.

(** datetime.py's [_ord2ymd]: ordinal to (year, month, day). *)
Definition ord2ymd (ordinal : Z) : Z * Z * Z :=
  let n := ordinal - 1 in
  let n400 := n / DI400Y in
  let n := n mod DI400Y in
  let year := n400 * 400 + 1 in
  let n100 := n / DI100Y in
  let n := n mod DI100Y in
  let n4 := n / DI4Y in
  let n := n mod DI4Y in
  let n1 := n / 365 in
  let n := n mod 365 in
  let year := year + n100 * 100 + n4 * 4 + n1 in
  if (n1 =? 4) || (n100 =? 4) then (year - 1, 12, 31)
  else
    let leapyear := (n1 =? 3) && (negb (n4 =? 24) || (n100 =? 3)) in
    let month := Z.shiftr (n + 50) 5 in
    let preceding :=
      days_before_month month + (if (2 <? month) && leapyear then 1 else 0) in
    if n <? preceding then
      let month := month - 1 in
      let preceding := preceding - days_in_month leapyear month in
      (year, month, n - preceding + 1)
    else (year, month, n - preceding + 1).

(** [n] in decimal, left-padded with zeros to [width] digits. *)
Fixpoint zeros (k : nat) : string :=
  match k with O => "" | S k' => String "0" (zeros k') end.

Definition zpad (width : nat) (n : Z) : string :=
  let d := str_of_Z n in
  zeros (width - String.length d) ++ d.

(** [t.strftime('%Y-%m-%d')]; the year is written on four digits, which is
    what every platform prints from the year 1000 on. *)
Definition strftime_ymd (t : datetime) : string :=
  let '(y, m, d) := ord2ymd (toordinal t) in
  zpad 4 y ++ "-" ++ zpad 2 m ++ "-" ++ zpad 2 d.

(** [t.strftime('%Y-%m-%d %H:%M')] *)
Definition strftime_ymd_hm (t : datetime) : string :=
  let s := (t mod us_per_day) / 1000000 in
  strftime_ymd t ++ " " ++ zpad 2 (s / 3600) ++ ":" ++ zpad 2 ((s / 60) mod 60).

(* ------------------------------------------------------------------ *)
(** ** Upstream calls and their log *)

(** One outbound call. *)
Inductive call : Type :=
| HttpGet (url : string) (headers : list (string * string)) (timeout : Z)
| Generate (prompt : string).

Definition trace := list call.

(** What [requests.get] hands back when it does not raise: the status and
    what [.json()] does on the body. *)
Record http_response : Type := {
  status_code : Z;
  http_error_text : string;    (* str() of the HTTPError of this response *)
  json_body : exn + json
}.

(** The world outside the process.  Both upstreams may answer differently
    on every call: they see the calls made before. *)
Record upstream : Type := {
  GITHUB_TOKEN : string;
  requests_get : trace -> string -> list (string * string) -> Z -> exn + http_response;
  generate_content : trace -> string -> exn + string;   (* response.text *)
  markdown : string -> string;
  b64decode_utf8 : string -> exn + string;
  str_exn : exn -> string;      (* f"{e}" *)
  str_json : json -> string     (* f"{v}" for a value that is not a str *)
}.

(** Handlers run in a state monad over the call log. *)
Definition M (A : Type) : Type := trace -> A * trace.

Definition ret {A} (x : A) : M A := fun tr => (x, tr).

Definition bind {A B} (c : M A) (f : A -> M B) : M B :=
  fun tr => let '(x, tr') := c tr in f x tr'.

Notation "x <- c ;; k" := (bind c (fun x => k))
  (at level 61, c at next level, right associativity).

Notation "' pat <- c ;; k" := (bind c (fun x => let 'pat := x in k))
  (at level 61, pat pattern, c at next level, right associativity).

(** Code under [try:]: the first exception ends the block. *)
Definition try_bind {A B} (c : exn + A) (f : A -> exn + B) : exn + B :=
  match c with inl e => inl e | inr x => f x end.

Notation "x <-? c ;; k" := (try_bind c (fun x => k))
  (at level 61, c at next level, right associativity).

(** A Python [str] or [None]. *)
Definition pystr := option string.

(** [f"{v}"] for such a value. *)
Definition fmt (v : pystr) : string :=
  match v with Some s => s | None => "None" end.

(** [not v] *)
Definition falsy (v : pystr) : bool := negb (truthy_str v).

(** What a handler gives back: [jsonify(body), status], or an exception
    that no handler catches. *)
Inductive response : Type :=
| Jsonify (body : json) (status : Z)
| Unhandled (e : exn).

(** [response.raise_for_status()] *)
Definition raise_for_status (r : http_response) : exn + unit :=
  if (400 <=? status_code r) && (status_code r <? 600)
  then inl (HTTPError (status_code r) (http_error_text r))
  else inr tt.

Section Handlers.

Variable U : upstream.

Definition auth_headers : list (string * string) :=
  [("Authorization", "Bearer " ++ GITHUB_TOKEN U);
   ("Accept", "application/vnd.github.v3+json")].

(** [requests.get(url, headers=headers, timeout=timeout)] *)
Definition http_get (url : string) (timeout : Z) : M (exn + http_response) :=
  fun tr => (requests_get U tr url auth_headers timeout,
             (tr ++ [HttpGet url auth_headers timeout])%list).

(** [model.generate_content(prompt)] followed by [.text] *)
Definition model_text (prompt : string) : M (exn + string) :=
  fun tr => (generate_content U tr prompt, (tr ++ [Generate prompt])%list).

(** [f"{v}"] for a JSON value. *)
Definition fmt_json (v : json) : string :=
  match v with JStr s => s | _ => str_json U v end.

(** [base64.b64decode(v).decode('utf-8')] *)
Definition decode_content (v : json) : exn + string :=
  match v with
  | JStr s => b64decode_utf8 U s
  | _ => inl (TypeError "argument should be a bytes-like object or ASCII string")
  end.

Definition get_github_readme (owner repo_name : pystr) : M (pystr * pystr) :=
  let url := "https://api.github.com/repos/" ++ fmt owner ++ "/" ++ fmt repo_name
             ++ "/readme" in
  got <- http_get url 15 ;;
  ret (match (response <-? got ;;
              _ <-? raise_for_status response ;;
              body <-? json_body response ;;
              content <-? subscript body "content" ;;
              decode_content content) with
       | inr content => (Some content, None)
       | inl (HTTPError code _) =>
           (None, Some ("Could not fetch README. (HTTP Error: " ++ str_of_Z code ++ ")"))
       | inl e => (None, Some ("An unexpected error occurred: " ++ str_exn U e))
       end).

Definition summarize_readme_with_gemini (readme_content : pystr) : M (pystr * pystr) :=
  if falsy readme_content then ret (None, Some "README content is empty.")
  else
    let prompt := "As a senior software engineer, analyze the following README and provide a concise summary in Markdown format, including project purpose, key features, and technology stack.
---" ++ fmt readme_content in
    got <- model_text prompt ;;
    ret (match got with
         | inr text => (Some (markdown U text), None)
         | inl e => (None, Some ("Error generating summary: " ++ str_exn U e))
         end).

(** [item['path'] for item in tree if item['type'] == 'blob'] *)
Fixpoint blob_paths (tree : list json) : exn + list json :=
  match tree with
  | [] => inr []
  | item :: rest =>
      ty <-? subscript item "type" ;;
      if eq_str ty "blob" then
        path <-? subscript item "path" ;;
        paths <-? blob_paths rest ;;
        inr (path :: paths)
      else blob_paths rest
  end.

(** [sep.join(l)] on Python values: every item has to be a [str]. *)
Fixpoint all_str (l : list json) : exn + list string :=
  match l with
  | [] => inr []
  | JStr s :: l' => ss <-? all_str l' ;; inr (s :: ss)
  | _ :: _ => inl (TypeError "sequence item: expected str instance")
  end.

Definition join_json (sep : string) (l : list json) : exn + string :=
  ss <-? all_str l ;; inr (join sep ss).

Definition nl : string := String (ascii_of_nat 10) EmptyString.

Definition get_github_file_structure (owner repo_name : pystr) : M (pystr * pystr) :=
  let repo_url := "https://api.github.com/repos/" ++ fmt owner ++ "/" ++ fmt repo_name in
  let failed (e : exn) : pystr * pystr :=
    (None, Some ("Could not fetch file structure: " ++ str_exn U e)) in
  got <- http_get repo_url 10 ;;
  match (repo_info <-? got ;;
         _ <-? raise_for_status repo_info ;;
         body <-? json_body repo_info ;;
         subscript body "default_branch") with
  | inl e => ret (failed e)
  | inr default_branch =>
      let tree_url := "https://api.github.com/repos/" ++ fmt owner ++ "/"
                      ++ fmt repo_name ++ "/git/trees/" ++ fmt_json default_branch ++ "?recursive=1" in
      got <- http_get tree_url 15 ;;
      ret (match (tree_response <-? got ;;
                  _ <-? raise_for_status tree_response ;;
                  body <-? json_body tree_response ;;
                  tree <-? subscript body "tree" ;;
                  items <-? py_iter tree ;;
                  files <-? blob_paths items ;;
                  join_json nl (firstn 200 files)) with
           | inr text => (Some text, None)
           | inl e => failed e
           end)
  end.

Definition analyze_structure_with_gemini (file_structure : pystr) : M (pystr * pystr) :=
  if falsy file_structure then ret (None, Some "File structure is empty.")
  else
    let prompt := "You are a principal software architect. Based on the file structure, provide a high-level analysis in Markdown format, including likely architecture, key components, and code organization.
---" ++ fmt file_structure in
    got <- model_text prompt ;;
    ret (match got with
         | inr text => (Some (markdown U text), None)
         | inl e => (None, Some ("Error generating analysis: " ++ str_exn U e))
         end).

Definition get_setup_guide_with_gemini (readme file_structure : pystr) : M (pystr * pystr) :=
  let prompt := "Based on the README and file structure, provide a step-by-step setup guide in Markdown format.
---README---
" ++ fmt readme ++ "
---FILE STRUCTURE---
" ++ fmt file_structure in
  got <- model_text prompt ;;
  ret (match got with
       | inr text => (Some (markdown U text), None)
       | inl e => (None, Some ("Error generating setup guide: " ++ str_exn U e))
       end).

(** A [str] or [None] as a JSON value. *)
Definition to_json (v : pystr) : json :=
  match v with Some s => JStr s | None => JNull end.

Definition error_body (e : pystr) : json := JObj [("error", to_json e)].

(** POST /api/analyze, on the parsed body. *)
Definition analyze_repo_route (data : json) : M response :=
  match dict_get data "repo_url" JNull with
  | inl e => ret (Unhandled e)
  | inr repo_url =>
      if negb (truthy repo_url)
      then ret (Jsonify (JObj [("error", JStr "repo_url is required")]) 400)
      else
        match repo_url with
        | JStr url =>
            let '(owner, repo_name) := parse_github_url url in
            if falsy owner || falsy repo_name
            then ret (Jsonify (JObj [("error", JStr "Invalid GitHub URL")]) 400)
            else
              '(readme_content, error) <- get_github_readme owner repo_name ;;
              if truthy_str error then ret (Jsonify (error_body error) 500) else
              '(readme_summary, error) <- summarize_readme_with_gemini readme_content ;;
              if truthy_str error then ret (Jsonify (error_body error) 500) else
              '(file_structure, error) <- get_github_file_structure owner repo_name ;;
              if truthy_str error then ret (Jsonify (error_body error) 500) else
              '(structure_analysis, error) <- analyze_structure_with_gemini file_structure ;;
              if truthy_str error then ret (Jsonify (error_body error) 500) else
              '(setup_guide, error) <- get_setup_guide_with_gemini readme_content file_structure ;;
              if truthy_str error then ret (Jsonify (error_body error) 500) else
              ret (Jsonify (JObj [("readme_summary", to_json readme_summary);
                                  ("structure_analysis", to_json structure_analysis);
                                  ("setup_guide", to_json setup_guide)]) 200)
        | _ => ret (Unhandled (TypeError "expected string or bytes-like object"))
        end
  end.

(** The search terms of GET /api/trending. *)
Definition trending_q (search_query : pystr) (now : datetime) : list string :=
  let q := if truthy_str search_query then [fmt search_query] else [] in
  let created := "created:>" ++ strftime_ymd (now - timedelta_days 730) in
  (q ++ [created])%list.

Definition trending_url (search_query : pystr) (now : datetime) : string :=
  "https://api.github.com/search/repositories?q=" ++ join "+" (trending_q search_query now)
  ++ "&sort=stars&order=desc&per_page=12".

(** The dict built for one search hit. *)
Definition trending_entry (r : json) : exn + json :=
  name <-? subscript r "full_name" ;;
  url <-? subscript r "html_url" ;;
  stars <-? subscript r "stargazers_count" ;;
  description <-? subscript r "description" ;;
  forks <-? subscript r "forks_count" ;;
  inr (JObj [("name", name);
             ("url", url);
             ("stars", stars);
             ("description", if truthy description then description else JStr "");
             ("forks", forks)]).

Fixpoint trending_entries (items : list json) : exn + list json :=
  match items with
  | [] => inr []
  | r :: rest =>
      entry <-? trending_entry r ;;
      entries <-? trending_entries rest ;;
      inr (entry :: entries)
  end.

(** GET /api/trending?search_query=, called at time [now]. *)
Definition trending_repos_route (search_query : pystr) (now : datetime) : M response :=
  if now - timedelta_days 730 <? 0
  then ret (Unhandled (OverflowError "date value out of range"))
  else
    got <- http_get (trending_url search_query now) 15 ;;
    ret (match (resp <-? got ;;
                _ <-? raise_for_status resp ;;
                body <-? json_body resp ;;
                items <-? dict_get body "items" (JArr []) ;;
                rs <-? py_iter items ;;
                trending_entries rs) with
         | inr result => Jsonify (JArr result) 200
         | inl e =>
             Jsonify (JObj [("error", JStr ("Error searching repos: " ++ str_exn U e))]) 500
         end).

End Handlers.

(* ------------------------------------------------------------------ *)
(** ** The idea board *)

Module Post.
Record t : Type := {
  id : Z;
  repo_name : string;
  idea : string;
  timestamp : datetime
}.
End Post.

Module Comment.
Record t : Type := {
  id : Z;
  text : string;
  timestamp : datetime;
  post_id : Z
}.
End Comment.

(** The two tables of ideas.db, rows in insertion order. *)
Record database : Type := {
  posts : list Post.t;
  comments : list Comment.t
}.

(** [db.create_all()] on a fresh file. *)
Definition empty_db : database := {| posts := []; comments := [] |}.

(** [post.comments]: the rows of the relationship. *)
Definition post_comments (db : database) (post : Post.t) : list Comment.t :=
  filter (fun c => Comment.post_id c =? Post.id post) (comments db).

(** The integer primary key given to the next row. *)
Definition next_id (rows : list Post.t) : Z :=
  1 + fold_right Z.max 0 (map Post.id rows).

(** A Python value bound to a column of TEXT affinity: text is kept,
    integers that fit 64 bits are stored in their text form, anything else
    is refused by the driver. *)
Definition bind_text (v : json) : exn + string :=
  match v with
  | JStr s => inr s
  | JNum n =>
      if (- 2 ^ 63 <=? n) && (n <? 2 ^ 63) then inr (str_of_Z n)
      else inl (OverflowError "Python int too large to convert to SQLite INTEGER")
  | JBool b => inr (if b then "1" else "0")
  | _ => inl (Raised "Error binding parameter: type is not supported")
  end.

(** [ORDER BY timestamp DESC]; rows of equal time keep their order. *)
Fixpoint insert_desc (p : Post.t) (l : list Post.t) : list Post.t :=
  match l with
  | [] => [p]
  | q :: l' =>
      if Post.timestamp q <=? Post.timestamp p then p :: l
      else q :: insert_desc p l'
  end.

Definition order_by_timestamp_desc (rows : list Post.t) : list Post.t :=
  fold_right insert_desc [] rows.

(** A unit of work: what is written inside the open transaction
    ([working]) becomes the content of the file ([durable]) on commit. *)
Record session : Type := {
  durable : database;
  working : database;
  pending : list (json * json)      (* Post(repo_name=..., idea=...) *)
}.

Definition open_session (db : database) : session :=
  {| durable := db; working := db; pending := [] |}.

(** [db.session.add(Post(repo_name=repo_name, idea=idea))] *)
Definition session_add (repo_name idea : json) (s : session) : session :=
  {| durable := durable s; working := working s;
     pending := (pending s ++ [(repo_name, idea)])%list |}.

(** INSERT of one pending post, [timestamp] defaulting to [utcnow()]. *)
Definition insert_post (now : datetime) (new : json * json) (db : database)
  : exn + database :=
  repo_name <-? bind_text (fst new) ;;
  idea <-? bind_text (snd new) ;;
  inr {| posts := (posts db
                   ++ [{| Post.id := next_id (posts db); Post.repo_name := repo_name;
                          Post.idea := idea; Post.timestamp := now |}])%list;
         comments := comments db |}.

Fixpoint flush (now : datetime) (news : list (json * json)) (db : database)
  : exn + database :=
  match news with
  | [] => inr db
  | new :: rest => db' <-? insert_post now new db ;; flush now rest db'
  end.

(** [db.session.commit()].  [fault] is the failure of the database itself
    (locked file, full disk), if it has one at this moment. *)
Definition session_commit (now : datetime) (fault : option exn) (s : session)
  : (exn + unit) * session :=
  match flush now (pending s) (working s) with
  | inl e => (inl e, s)
  | inr written =>
      match fault with
      | Some e => (inl e, {| durable := durable s; working := written; pending := [] |})
      | None => (inr tt, {| durable := written; working := written; pending := [] |})
      end
  end.

(** [db.session.rollback()] *)
Definition session_rollback (s : session) : session :=
  {| durable := durable s; working := durable s; pending := [] |}.

(** The dict that GET /api/posts builds for one post. *)
Definition post_summary (db : database) (post : Post.t) : json :=
  JObj [("id", JNum (Post.id post));
        ("repo_name", JStr (Post.repo_name post));
        ("idea", JStr (Post.idea post));
        ("timestamp", JStr (strftime_ymd_hm (Post.timestamp post)));
        ("comments_count", JNum (Z.of_nat (List.length (post_comments db post))))].

(** GET /api/posts.  [fault]: the failure of the database on this read. *)
Definition get_posts (fault : option exn) (db : database) : response :=
  match fault with
  | Some _ => Jsonify (JObj [("error", JStr "Failed to fetch posts")]) 500
  | None =>
      let rows := order_by_timestamp_desc (posts db) in
      Jsonify (JArr (map (post_summary db) rows)) 200
  end.

(** POST /api/posts, on the parsed body, at time [now]. *)
Definition add_post (data : json) (now : datetime) (fault : option exn) (db : database)
  : response * database :=
  match dict_get data "repo_name" JNull with
  | inl e => (Unhandled e, db)
  | inr repo_name =>
      match dict_get data "idea" JNull with
      | inl e => (Unhandled e, db)
      | inr idea =>
          if truthy repo_name && truthy idea then
            let s := session_add repo_name idea (open_session db) in
            match session_commit now fault s with
            | (inr _, s') =>
                (Jsonify (JObj [("success", JBool true);
                                ("message", JStr "Idea posted successfully!")]) 201,
                 durable s')
            | (inl _, s') =>
                let s'' := session_rollback s' in
                (Jsonify (JObj [("success", JBool false);
                                ("message", JStr "Database error.")]) 500,
                 durable s'')
            end
          else
            (Jsonify (JObj [("success", JBool false);
                            ("message", JStr "Missing repository name or idea.")]) 400,
             db)
      end
  end.

(* ------------------------------------------------------------------ *)
(** ** The service as a transition system *)

(** A request together with what the outside world contributes to it. *)
Inductive request : Type :=
| Analyze (data : json)
| Trending (search_query : pystr) (now : datetime)
| GetPosts (fault : option exn)
| AddPost (data : json) (now : datetime) (fault : option exn).

Record service : Type := {
  store : database;
  log : trace
}.

Definition boot : service := {| store := empty_db; log := [] |}.

Definition handle (U : upstream) (r : request) (sv : service) : response * service :=
  match r with
  | Analyze data =>
      let '(resp, tr) := analyze_repo_route U data (log sv) in
      (resp, {| store := store sv; log := tr |})
  | Trending search_query now =>
      let '(resp, tr) := trending_repos_route U search_query now (log sv) in
      (resp, {| store := store sv; log := tr |})
  | GetPosts fault => (get_posts fault (store sv), sv)
  | AddPost data now fault =>
      let '(resp, db) := add_post data now fault (store sv) in
      (resp, {| store := db; log := log sv |})
  end.

Fixpoint serve (U : upstream) (rs : list request) (sv : service) : service :=
  match rs with
  | [] => sv
  | r :: rs' => serve U rs' (snd (handle U r sv))
  end.

Definition reachable (U : upstream) (sv : service) : Prop :=
  exists rs, sv = serve U rs boot.

(* ------------------------------------------------------------------ *)
(** ** Vocabulary of the statements *)

(** A path segment, the [{owner}] and [{repo}] of a URL: not empty and
    without a slash. *)
Fixpoint no_slash (s : string) : bool :=
  match s with
  | String c s' => negb (Ascii.eqb c slash) && no_slash s'
  | EmptyString => true
  end.

Definition segment (s : string) : Prop := s <> "" /\ no_slash s = true.

(** Nothing, or a path that goes on after a slash. *)
Definition trailing (s : string) : Prop :=
  s = "" \/ exists s', s = String slash s'.

Definition github_prefix : string := "https://github.com/".

(** [url] contains https://github.com/{owner}/{repo} somewhere. *)
Definition contains_repo (url : string) : Prop :=
  exists pre owner repo post,
    url = pre ++ github_prefix ++ owner ++ "/" ++ repo ++ post
    /\ segment owner /\ segment repo.

(** No https://github.com/{owner}/{repo} starts inside [pre] in the string
    [pre ++ tail]: an occurrence at the start of [tail] is the first one. *)
Definition occurs_first (pre tail : string) : Prop :=
  forall pre1 pre2 o r post,
    pre = pre1 ++ pre2 -> pre2 <> "" -> segment o -> segment r ->
    pre2 ++ tail <> github_prefix ++ o ++ "/" ++ r ++ post.

(** [url] is a scheme, then github.com/{owner}/{repo}, then a trailing path. *)
Definition names_repo (url owner repo : string) : Prop :=
  exists scheme rest,
    url = scheme ++ "github.com/" ++ owner ++ "/" ++ repo ++ rest
    /\ segment owner /\ segment repo /\ trailing rest.

(** [s] without the prefix [p], when it has it. *)
Fixpoint drop_prefix (p s : string) : option string :=
  match p, s with
  | EmptyString, _ => Some s
  | String a p', String b s' => if Ascii.eqb b a then drop_prefix p' s' else None
  | String _ _, EmptyString => None
  end.

(** The longest prefix of [s] within the set [p], and what follows it. *)
Fixpoint run (p : Re.charset) (s : string) : string :=
  match s with
  | String a s' => if Re.mem p a then String a (run p s') else EmptyString
  | EmptyString => EmptyString
  end.

Fixpoint skip (p : Re.charset) (s : string) : string :=
  match s with
  | String a s' => if Re.mem p a then skip p s' else s
  | EmptyString => EmptyString
  end.

(** What [pattern] matches at the start of [s], read off the pattern. *)
Definition match_direct (s : string) : option (string * string) :=
  match drop_prefix github_prefix s with
  | None => None
  | Some s1 =>
      match run (Re.AnyBut slash) s1, skip (Re.AnyBut slash) s1 with
      | String _ _ as owner, String c s2 =>
          if Ascii.eqb c slash then
            match run (Re.AnyBut slash) s2 with
            | String _ _ as repo => Some (owner, repo)
            | EmptyString => None
            end
          else None
      | _, _ => None
      end
  end.

(** *** Whitespace *)

Fixpoint all_space (s : string) : bool :=
  match s with
  | String c s' => is_space c && all_space s'
  | EmptyString => true
  end.

Definition first_char (s : string) : option ascii :=
  match s with String c _ => Some c | EmptyString => None end.

Fixpoint last_char (s : string) : option ascii :=
  match s with
  | EmptyString => None
  | String c EmptyString => Some c
  | String _ s' => last_char s'
  end.

(** *** The analysis pipeline *)

Inductive stage : Type :=
| UrlParse | ReadmeFetch | ReadmeSummary | StructureFetch | StructureAnalysis | SetupGuide.

(** A step run from log [t] succeeds with value [v] and leaves log [t']. *)
Definition ok (step : M (pystr * pystr)) (t : trace) (v : string) (t' : trace) : Prop :=
  step t = ((Some v, None), t').

(** A step run from log [t] fails with message [e] and leaves log [t']. *)
Definition ko (step : M (pystr * pystr)) (t : trace) (e : string) (t' : trace) : Prop :=
  exists v, step t = ((v, Some e), t').

(** [url] parses to a usable owner and repository. *)
Definition parsed (url : string) (owner repo : pystr) : Prop :=
  url <> "" /\ parse_github_url url = (owner, repo)
  /\ falsy owner = false /\ falsy repo = false.

(** What a step hands back: a value and no error, or no value and an
    error message that counts as true. *)
Definition step_result (r : pystr * pystr) : Prop :=
  (exists v, r = (Some v, None))
  \/ (exists e, r = (None, Some e) /\ truthy_str (Some e) = true).

Section Pipeline.
Variable U : upstream.
Variable url : string.
Variable t0 : trace.

(** The first step that fails, its status and message, and the call log
    at the moment it fails. *)
Inductive fails_at : stage -> Z -> string -> trace -> Prop :=
| fail_required :
    url = "" -> fails_at UrlParse 400 "repo_url is required" t0
| fail_parse o r :
    url <> "" -> parse_github_url url = (o, r) -> falsy o || falsy r = true ->
    fails_at UrlParse 400 "Invalid GitHub URL" t0
| fail_readme o r e t1 :
    parsed url o r ->
    ko (get_github_readme U o r) t0 e t1 ->
    fails_at ReadmeFetch 500 e t1
| fail_summary o r readme t1 e t2 :
    parsed url o r ->
    ok (get_github_readme U o r) t0 readme t1 ->
    ko (summarize_readme_with_gemini U (Some readme)) t1 e t2 ->
    fails_at ReadmeSummary 500 e t2
| fail_structure o r readme t1 summary t2 e t3 :
    parsed url o r ->
    ok (get_github_readme U o r) t0 readme t1 ->
    ok (summarize_readme_with_gemini U (Some readme)) t1 summary t2 ->
    ko (get_github_file_structure U o r) t2 e t3 ->
    fails_at StructureFetch 500 e t3
| fail_analysis o r readme t1 summary t2 files t3 e t4 :
    parsed url o r ->
    ok (get_github_readme U o r) t0 readme t1 ->
    ok (summarize_readme_with_gemini U (Some readme)) t1 summary t2 ->
    ok (get_github_file_structure U o r) t2 files t3 ->
    ko (analyze_structure_with_gemini U (Some files)) t3 e t4 ->
    fails_at StructureAnalysis 500 e t4
| fail_guide o r readme t1 summary t2 files t3 analysis t4 e t5 :
    parsed url o r ->
    ok (get_github_readme U o r) t0 readme t1 ->
    ok (summarize_readme_with_gemini U (Some readme)) t1 summary t2 ->
    ok (get_github_file_structure U o r) t2 files t3 ->
    ok (analyze_structure_with_gemini U (Some files)) t3 analysis t4 ->
    ko (get_setup_guide_with_gemini U (Some readme) (Some files)) t4 e t5 ->
    fails_at SetupGuide 500 e t5.

(** All six steps succeed, with the three documents and the final log. *)
Inductive succeeds : string -> string -> string -> trace -> Prop :=
| all_steps o r readme t1 summary t2 files t3 analysis t4 guide t5 :
    parsed url o r ->
    ok (get_github_readme U o r) t0 readme t1 ->
    ok (summarize_readme_with_gemini U (Some readme)) t1 summary t2 ->
    ok (get_github_file_structure U o r) t2 files t3 ->
    ok (analyze_structure_with_gemini U (Some files)) t3 analysis t4 ->
    ok (get_setup_guide_with_gemini U (Some readme) (Some files)) t4 guide t5 ->
    succeeds summary analysis guide t5.
End Pipeline.

(** The body of a failed request. *)
Definition error_json (e : string) : json := JObj [("error", JStr e)].

(** The body of a successful analysis. *)
Definition documents (summary analysis guide : string) : json :=
  JObj [("readme_summary", JStr summary);
        ("structure_analysis", JStr analysis);
        ("setup_guide", JStr guide)].

(** The upstream calls that can have been made when a stage fails. *)
Definition calls_up_to (st : stage) : nat :=
  match st with
  | UrlParse => 0
  | ReadmeFetch => 1
  | ReadmeSummary => 2
  | StructureFetch => 4
  | StructureAnalysis => 5
  | SetupGuide => 6
  end.

(** [t'] continues the log [t] with between [lo] and [hi] calls. *)
Definition extends (t t' : trace) (lo hi : nat) : Prop :=
  exists new, t' = (t ++ new)%list /\ (lo <= List.length new <= hi)%nat.

(** *** A sample world, for concrete runs *)

Definition sample_tree : json :=
  JArr [JObj [("path", JStr "README.md"); ("type", JStr "blob")];
        JObj [("path", JStr "src"); ("type", JStr "tree")];
        JObj [("path", JStr "src/app.py"); ("type", JStr "blob")]].

(** GitHub answers 200 to the n-th call of a request with the n-th body. *)
Definition sample_get (t : trace) (url : string) (headers : list (string * string))
           (timeout : Z) : exn + http_response :=
  let body :=
    match List.length t with
    | 0%nat => JObj [("content", JStr "IyBBdGxhcw==")]
    | 2%nat => JObj [("default_branch", JStr "main")]
    | 3%nat => JObj [("tree", sample_tree)]
    | _ => JObj [("items", JArr [])]
    end in
  inr {| status_code := 200; http_error_text := ""; json_body := inr body |}.

Definition sample_upstream : upstream := {|
  GITHUB_TOKEN := "ghp_sample";
  requests_get := sample_get;
  generate_content := fun _ _ => inr "Atlas";
  markdown := fun s => "<p>" ++ s ++ "</p>";
  b64decode_utf8 := fun _ => inr "# Atlas";
  str_exn := fun _ => "error";
  str_json := fun _ => "None"
|}.

(** The same world with a model that is down. *)
Definition sample_model_down : upstream := {|
  GITHUB_TOKEN := "ghp_sample";
  requests_get := sample_get;
  generate_content := fun _ _ => inl (Raised "quota exceeded");
  markdown := fun s => "<p>" ++ s ++ "</p>";
  b64decode_utf8 := fun _ => inr "# Atlas";
  str_exn := fun e => match e with Raised m => m | _ => "error" end;
  str_json := fun _ => "None"
|}.

Definition sample_body : json := JObj [("repo_url", JStr "https://github.com/octo/atlas")].

(** *** The file structure *)

(** An entry of the git tree that is a file. *)
Definition is_blob (item : json) : bool :=
  match subscript item "type" with
  | inr ty => eq_str ty "blob"
  | inl _ => false
  end.

(** The path of an entry. *)
Definition path_of (item : json) : string :=
  match subscript item "path" with
  | inr (JStr s) => s
  | _ => ""
  end.

(** The text the spec describes: the blobs, at most the first 200 of them
    in the order returned, their paths joined by newlines. *)
Definition file_listing (items : list json) : string :=
  join nl (firstn 200 (map path_of (filter is_blob items))).

Definition repo_api_url (owner repo : pystr) : string :=
  "https://api.github.com/repos/" ++ fmt owner ++ "/" ++ fmt repo.

Definition tree_api_url (owner repo : pystr) (branch : string) : string :=
  "https://api.github.com/repos/" ++ fmt owner ++ "/" ++ fmt repo
  ++ "/git/trees/" ++ branch ++ "?recursive=1".

(** The prompt of the setup guide. *)
Definition setup_guide_prompt (readme files : pystr) : string :=
  "Based on the README and file structure, provide a step-by-step setup guide in Markdown format.
---README---
" ++ fmt readme ++ "
---FILE STRUCTURE---
" ++ fmt files.

(** *** The trending search *)

Definition search_base : string := "https://api.github.com/search/repositories?q=".
Definition search_tail : string := "&sort=stars&order=desc&per_page=12".

(** The date token: repositories created after the given calendar day. *)
Definition created_after (ymd : Z * Z * Z) : string :=
  let '(y, m, d) := ymd in
  "created:>" ++ zpad 4 y ++ "-" ++ zpad 2 m ++ "-" ++ zpad 2 d.

(** Percent-encoding of a query component: letters, digits and [-_.~] are
    kept, every other character becomes [%XX]. *)
Definition hex_digit (n : nat) : ascii :=
  nth n (list_ascii_of_string "0123456789ABCDEF") "0"%char.

Definition unreserved (c : ascii) : bool :=
  let n := nat_of_ascii c in
  ((48 <=? n) && (n <=? 57) || (65 <=? n) && (n <=? 90) || (97 <=? n) && (n <=? 122)
   || (n =? 45) || (n =? 95) || (n =? 46) || (n =? 126))%nat.

Fixpoint url_escape (s : string) : string :=
  match s with
  | EmptyString => EmptyString
  | String c s' =>
      if unreserved c then String c (url_escape s')
      else
        let n := nat_of_ascii c in
        String "%" (String (hex_digit (n / 16)) (String (hex_digit (n mod 16)) (url_escape s')))
  end.

(** The URL the spec describes: the tokens escaped, then joined. *)
Definition escaped_search_url (tokens : list string) : string :=
  search_base ++ join "+" (map url_escape tokens) ++ search_tail.

(** [e] is the entry built from the search hit [r]. *)
Definition projects (r e : json) : Prop :=
  exists name url stars description forks,
    subscript r "full_name" = inr name
    /\ subscript r "html_url" = inr url
    /\ subscript r "stargazers_count" = inr stars
    /\ subscript r "description" = inr description
    /\ subscript r "forks_count" = inr forks
    /\ e = JObj [("name", name);
                 ("url", url);
                 ("stars", stars);
                 ("description", if truthy description then description else JStr "");
                 ("forks", forks)].

(** The star count of an entry. *)
Definition stars_of (e : json) : Z :=
  match subscript e "stars" with inr (JNum n) => n | _ => 0 end.

(** Descending by star count. *)
Fixpoint stars_descending (l : list json) : bool :=
  match l with
  | a :: (b :: _) as l' => (stars_of b <=? stars_of a) && stars_descending l'
  | _ => true
  end.

(** A search hit with [n] stars. *)
Definition hit (n : Z) : json :=
  JObj [("full_name", JStr ("octo/r" ++ str_of_Z n));
        ("html_url", JStr ("https://github.com/octo/r" ++ str_of_Z n));
        ("stargazers_count", JNum n);
        ("description", JNull);
        ("forks_count", JNum 0)].

(** A world whose search answers thirteen hits, fewest stars first. *)
Definition thirteen_hits : upstream := {|
  GITHUB_TOKEN := "ghp_sample";
  requests_get := fun _ _ _ _ =>
    inr {| status_code := 200; http_error_text := "";
           json_body := inr (JObj [("items", JArr (map hit [1;2;3;4;5;6;7;8;9;10;11;12;13]))]) |};
  generate_content := fun _ _ => inr "";
  markdown := fun s => s;
  b64decode_utf8 := fun s => inr s;
  str_exn := fun _ => "error";
  str_json := fun _ => "None"
|}.

(** Midnight of 2026-11-03. *)
Definition sample_now : datetime := (739923 - 1) * us_per_day.

(** *** The idea board *)

(** [p] may stand before [q] in a list that has the most recent first. *)
Definition newer_first (p q : Post.t) : Prop := Post.timestamp q <= Post.timestamp p.

(** The value of a field of the request body, [None] when it is absent. *)
Definition field (k : string) (fields : list (string * json)) : json :=
  match assoc k fields with Some v => v | None => JNull end.

(** The store invariant: no post with an empty repo_name or idea. *)
Definition filled (p : Post.t) : Prop := Post.repo_name p <> "" /\ Post.idea p <> "".

Definition store_ok (db : database) : Prop := Forall filled (posts db).

(** The summary [e] shows post [p] of [db]. *)
Definition summarizes (db : database) (p : Post.t) (e : json) : Prop :=
  subscript e "id" = inr (JNum (Post.id p))
  /\ subscript e "repo_name" = inr (JStr (Post.repo_name p))
  /\ subscript e "idea" = inr (JStr (Post.idea p))
  /\ subscript e "timestamp" = inr (JStr (strftime_ymd_hm (Post.timestamp p)))
  /\ subscript e "comments_count"
     = inr (JNum (Z.of_nat (List.length
                    (filter (fun c => Comment.post_id c =? Post.id p) (comments db))))).

(** Responses of POST /api/posts. *)
Definition created_201 : response :=
  Jsonify (JObj [("success", JBool true); ("message", JStr "Idea posted successfully!")]) 201.

Definition missing_400 : response :=
  Jsonify (JObj [("success", JBool false);
                 ("message", JStr "Missing repository name or idea.")]) 400.

Definition database_500 : response :=
  Jsonify (JObj [("success", JBool false); ("message", JStr "Database error.")]) 500.

(** *** Further vocabulary *)

Definition readme_api_url (owner repo : pystr) : string :=
  "https://api.github.com/repos/" ++ fmt owner ++ "/" ++ fmt repo ++ "/readme".

(** The prompt of the README summary. *)
Definition summary_prompt (readme : pystr) : string :=
  "As a senior software engineer, analyze the following README and provide a concise summary in Markdown format, including project purpose, key features, and technology stack.
---" ++ fmt readme.

(** The prompt of the structure analysis. *)
Definition analysis_prompt (files : pystr) : string :=
  "You are a principal software architect. Based on the file structure, provide a high-level analysis in Markdown format, including likely architecture, key components, and code organization.
---" ++ fmt files.

(** The response is an HTTP error for [raise_for_status]. *)
Definition error_status (r : http_response) : Prop :=
  400 <= status_code r < 600.

(** The host every GitHub request goes to. *)
Definition api_host : string := "https://api.github.com/".

(** A call the service is meant to make: a GitHub request to the API host
    with the token and a timeout of 10 or 15 seconds, or a model call. *)
Definition disciplined (U : upstream) (c : call) : Prop :=
  match c with
  | HttpGet url headers timeout =>
      String.prefix api_host url = true
      /\ headers = [("Authorization", "Bearer " ++ GITHUB_TOKEN U);
                    ("Accept", "application/vnd.github.v3+json")]
      /\ (timeout = 10 \/ timeout = 15)
  | Generate _ => True
  end.

(** An entry of a git tree that [blob_paths] can read: it has a type, and
    a path when the type is "blob". *)
Definition readable_entry (item : json) : Prop :=
  exists ty, subscript item "type" = inr ty
             /\ (eq_str ty "blob" = true -> exists p, subscript item "path" = inr p).

(** The keys of a search hit that the trending route reads. *)
Definition hit_keys : list string :=
  ["full_name"; "html_url"; "stargazers_count"; "description"; "forks_count"].

(** The identifiers of the stored posts. *)
Definition post_ids (db : database) : list Z := map Post.id (posts db).

(** A world whose repository holds one directory and no file. *)
Definition bare_get (t : trace) (url : string) (headers : list (string * string))
           (timeout : Z) : exn + http_response :=
  let body :=
    match List.length t with
    | 0%nat => JObj [("content", JStr "IyBBdGxhcw==")]
    | 2%nat => JObj [("default_branch", JStr "main")]
    | _ => JObj [("tree", JArr [JObj [("path", JStr "src"); ("type", JStr "tree")]])]
    end in
  inr {| status_code := 200; http_error_text := ""; json_body := inr body |}.

Definition bare_upstream : upstream := {|
  GITHUB_TOKEN := "ghp_sample";
  requests_get := bare_get;
  generate_content := fun _ _ => inr "Atlas";
  markdown := fun s => "<p>" ++ s ++ "</p>";
  b64decode_utf8 := fun _ => inr "# Atlas";
  str_exn := fun _ => "error";
  str_json := fun _ => "None"
|}.

(** A search hit that has every key the trending route reads. *)
Definition complete_hit (r : json) : Prop :=
  forall k, In k hit_keys -> exists v, subscript r k = inr v.

(** A world whose search answers an object without "items". *)
Definition no_items_upstream : upstream := {|
  GITHUB_TOKEN := "ghp_sample";
  requests_get := fun _ _ _ _ =>
    inr {| status_code := 200; http_error_text := "";
           json_body := inr (JObj [("total_count", JNum 0)]) |};
  generate_content := fun _ _ => inr "";
  markdown := fun s => s;
  b64decode_utf8 := fun s => inr s;
  str_exn := fun _ => "error";
  str_json := fun _ => "None"
|}.

(** A computation that adds only disciplined calls to a disciplined log. *)
Definition orderly (U : upstream) {A} (c : M A) : Prop :=
  forall t, Forall (disciplined U) t -> Forall (disciplined U) (snd (c t)).

(* ================================================================== *)
(** * Properties *)

(** ** Strings *)

Lemma append_assoc (a b c : string) : (a ++ b) ++ c = a ++ (b ++ c).
Proof. induction a as [|x a IH]; simpl; [reflexivity | now rewrite IH]. Qed.

Lemma append_nil_r (a : string) : a ++ "" = a.
Proof. induction a as [|x a IH]; simpl; [reflexivity | now rewrite IH]. Qed.

Lemma length_append (a b : string) :
  String.length (a ++ b) = (String.length a + String.length b)%nat.
Proof. induction a as [|x a IH]; simpl; [reflexivity | now rewrite IH]. Qed.

Lemma run_skip p s : run p s ++ skip p s = s.
Proof.
  induction s as [|a s IH]; simpl; [reflexivity|].
  destruct (Re.mem p a); simpl; [now rewrite IH | reflexivity].
Qed.

Lemma skip_length p s : (String.length (skip p s) <= String.length s)%nat.
Proof.
  induction s as [|a s IH]; simpl; [lia|].
  destruct (Re.mem p a); simpl; lia.
Qed.

Lemma skip_head p s a s' : skip p s = String a s' -> Re.mem p a = false.
Proof.
  induction s as [|b s IH]; simpl; [discriminate|].
  destruct (Re.mem p b) eqn:E; [exact IH|].
  intros H; injection H as -> _; exact E.
Qed.

Lemma take_skip p s :
  Re.take (String.length s - String.length (skip p s)) s = run p s.
Proof.
  induction s as [|a s IH]; [reflexivity|].
  cbn [skip run]. destruct (Re.mem p a) eqn:E.
  - pose proof (skip_length p s) as L. cbn [String.length].
    replace (S (String.length s) - String.length (skip p s))%nat
      with (S (String.length s - String.length (skip p s))) by lia.
    cbn [Re.take]. now rewrite IH.
  - now rewrite Nat.sub_diag.
Qed.

Lemma no_slash_run s : no_slash (run (Re.AnyBut slash) s) = true.
Proof.
  induction s as [|a s IH]; simpl; [reflexivity|].
  destruct (negb (Ascii.eqb a slash)) eqn:E; simpl; [now rewrite E | reflexivity].
Qed.

Lemma run_segment o rest :
  no_slash o = true -> trailing rest -> run (Re.AnyBut slash) (o ++ rest) = o.
Proof.
  intros Ho Hr. induction o as [|a o IH]; simpl in *.
  - destruct Hr as [-> | [s' ->]]; reflexivity.
  - apply andb_prop in Ho as [Ha Ho]. rewrite Ha. now rewrite IH.
Qed.

Lemma skip_segment o rest :
  no_slash o = true -> trailing rest -> skip (Re.AnyBut slash) (o ++ rest) = rest.
Proof.
  intros Ho Hr. induction o as [|a o IH]; simpl in *.
  - destruct Hr as [-> | [s' ->]]; reflexivity.
  - apply andb_prop in Ho as [Ha Ho]. rewrite Ha. now apply IH.
Qed.

Lemma run_append o s :
  no_slash o = true ->
  run (Re.AnyBut slash) (o ++ s) = o ++ run (Re.AnyBut slash) s.
Proof.
  intros Ho. induction o as [|a o IH]; simpl in *; [reflexivity|].
  apply andb_prop in Ho as [Ha Ho]. rewrite Ha. now rewrite IH.
Qed.

Lemma no_slash_append a b :
  no_slash a = true -> no_slash b = true -> no_slash (a ++ b) = true.
Proof.
  intros Ha Hb. induction a as [|x a IH]; simpl in *; [exact Hb|].
  apply andb_prop in Ha as [Hx Ha]. rewrite Hx. simpl. now apply IH.
Qed.

Lemma trailing_skip s : trailing (skip (Re.AnyBut slash) s).
Proof.
  destruct (skip (Re.AnyBut slash) s) as [|a s'] eqn:E; [now left|].
  right. exists s'. apply skip_head in E. simpl in E.
  apply negb_false_iff, Ascii.eqb_eq in E. now subst.
Qed.

Lemma drop_prefix_append p s : drop_prefix p (p ++ s) = Some s.
Proof.
  induction p as [|a p IH]; simpl; [now destruct s|].
  now rewrite Ascii.eqb_refl.
Qed.

Lemma drop_prefix_inv p s t : drop_prefix p s = Some t -> s = p ++ t.
Proof.
  revert s. induction p as [|a p IH]; intros s; simpl.
  - destruct s; intros H; now injection H as ->.
  - destruct s as [|b s]; [discriminate|].
    destruct (Ascii.eqb b a) eqn:E; [|discriminate].
    apply Ascii.eqb_eq in E. subst. intros H. now rewrite (IH _ H).
Qed.

(** ** What [strip] removes *)

Lemma lstrip_frame s :
  exists a, s = a ++ lstrip s /\ all_space a = true
            /\ forall c, first_char (lstrip s) = Some c -> is_space c = false.
Proof.
  induction s as [|c s (a & E & A & F)]; simpl.
  - exists "". repeat split. discriminate.
  - destruct (is_space c) eqn:S.
    + exists (String c a). simpl. rewrite S, A. repeat split; [now f_equal | exact F].
    + exists "". repeat split. simpl. now intros ? [= <-].
Qed.

Lemma rstrip_frame s :
  exists b, s = rstrip s ++ b /\ all_space b = true
            /\ forall c, last_char (rstrip s) = Some c -> is_space c = false.
Proof.
  induction s as [|c s (b & E & B & L)]; simpl.
  - exists "". repeat split. discriminate.
  - destruct (rstrip s) as [|d r] eqn:R.
    + simpl in E. subst b. destruct (is_space c) eqn:S.
      * exists (String c s). simpl. rewrite S, B. repeat split. discriminate.
      * exists s. repeat split; [exact B|]. simpl. now intros ? [= <-].
    + exists b. repeat split; [simpl; now f_equal | exact B | exact L].
Qed.

Lemma rstrip_first s c :
  is_space c = false -> first_char (rstrip (String c s)) = Some c.
Proof. intros S. simpl. destruct (rstrip s); [now rewrite S | reflexivity]. Qed.

(** [strip s] is [s] without a run of whitespace at each end, and neither
    begins nor ends with whitespace. *)
Lemma strip_frame s :
  exists a b,
    s = a ++ strip s ++ b /\ all_space a = true /\ all_space b = true
    /\ (forall c, first_char (strip s) = Some c -> is_space c = false)
    /\ (forall c, last_char (strip s) = Some c -> is_space c = false).
Proof.
  destruct (lstrip_frame s) as (a & Ea & A & F).
  destruct (rstrip_frame (lstrip s)) as (b & Eb & B & L).
  exists a, b. unfold strip. repeat split; try assumption.
  - now rewrite <- Eb.
  - intros c. destruct (lstrip s) as [|d r] eqn:D; [discriminate|].
    pose proof (F d eq_refl) as S. rewrite (rstrip_first r d S).
    now intros [= <-].
Qed.

Example strip_both : strip "  atlas .git  " = "atlas .git".
Proof. reflexivity. Qed.

(** ** The matcher *)

Section Backtracking.
Context {A : Type}.
Variable p : Re.charset.
Variable k : string -> option A.

(** The longest run is tried first. *)
Lemma star_accept s r : k (skip p s) = Some r -> Re.star p s k = Some r.
Proof.
  induction s as [|a s IH]; simpl; [trivial|].
  destruct (Re.mem p a); [|trivial].
  intros H. now rewrite (IH H).
Qed.

(** When what follows cannot start inside the set, only the longest run
    is worth trying. *)
Lemma star_longest s :
  (forall a s', Re.mem p a = true -> k (String a s') = None) ->
  Re.star p s k = k (skip p s).
Proof.
  intros Hk. induction s as [|a s IH]; simpl; [reflexivity|].
  destruct (Re.mem p a) eqn:E; [|reflexivity].
  rewrite IH. destruct (k (skip p s)); [reflexivity|]. now apply Hk.
Qed.
End Backtracking.

Lemma rmatch_lit {A} l s m (k : string -> Re.captures -> option A) :
  Re.rmatch (Re.lit l) s m k
  = match drop_prefix l s with Some s' => k s' m | None => None end.
Proof.
  revert s. induction l as [|a l IH]; intros s; simpl.
  - now destruct s.
  - destruct s as [|b s]; [reflexivity|]. simpl.
    destruct (Ascii.eqb b a); [apply IH | reflexivity].
Qed.

Lemma match_here_direct s :
  Re.match_here pattern s
  = option_map (fun '(owner, repo) => [(2%nat, repo); (1%nat, owner)]) (match_direct s).
Proof.
  unfold Re.match_here, pattern, match_direct.
  cbn [Re.rmatch]. rewrite rmatch_lit. fold github_prefix.
  destruct (drop_prefix github_prefix s) as [s1|]; [|reflexivity].
  unfold Re.plus at 1.
  destruct s1 as [|a s1]; [reflexivity|]. cbn [run skip].
  destruct (Re.mem (Re.AnyBut slash) a) eqn:Ea; [|reflexivity].
  rewrite star_longest.
  2:{ intros b s' Hb. simpl in Hb. apply negb_true_iff in Hb.
      simpl. now rewrite Hb. }
  pose proof (take_skip (Re.AnyBut slash) (String a s1)) as T.
  cbn [skip run] in T. rewrite Ea in T.
  destruct (skip (Re.AnyBut slash) s1) as [|c s2] eqn:Es; [reflexivity|].
  cbn [Re.mem]. destruct (Ascii.eqb c slash) eqn:Ec; [|reflexivity].
  unfold Re.plus.
  destruct s2 as [|b s2]; [reflexivity|]. cbn [run].
  destruct (Re.mem (Re.AnyBut slash) b) eqn:Eb; [|reflexivity].
  pose proof (take_skip (Re.AnyBut slash) (String b s2)) as T2.
  cbn [skip run] in T2. rewrite Eb in T2.
  erewrite star_accept; [|reflexivity].
  cbn [option_map]. rewrite T, T2. reflexivity.
Qed.

Lemma match_direct_intro o r rest :
  segment o -> segment r -> trailing rest ->
  match_direct (github_prefix ++ o ++ "/" ++ r ++ rest) = Some (o, r).
Proof.
  intros [Ho No] [Hr Nr] Hrest. unfold match_direct.
  rewrite drop_prefix_append.
  assert (T : trailing ("/" ++ r ++ rest)) by (right; now exists (r ++ rest)).
  rewrite (run_segment _ _ No T), (skip_segment _ _ No T).
  destruct o as [|a o]; [contradiction|].
  cbn [append]. change (Ascii.eqb "/" slash) with true. cbn iota.
  rewrite (run_segment _ _ Nr Hrest).
  destruct r as [|b r]; [contradiction | reflexivity].
Qed.

Lemma match_direct_elim s o r :
  match_direct s = Some (o, r) ->
  exists rest,
    s = github_prefix ++ o ++ "/" ++ r ++ rest
    /\ segment o /\ segment r /\ trailing rest.
Proof.
  unfold match_direct.
  destruct (drop_prefix github_prefix s) as [s1|] eqn:D; [|discriminate].
  apply drop_prefix_inv in D.
  pose proof (run_skip (Re.AnyBut slash) s1) as S1.
  pose proof (no_slash_run s1) as N1.
  destruct (run (Re.AnyBut slash) s1) as [|a o'] eqn:R1; [discriminate|].
  destruct (skip (Re.AnyBut slash) s1) as [|c s2] eqn:K1; [discriminate|].
  destruct (Ascii.eqb c slash) eqn:Ec; [|discriminate].
  apply Ascii.eqb_eq in Ec. subst c.
  pose proof (run_skip (Re.AnyBut slash) s2) as S2.
  pose proof (no_slash_run s2) as N2.
  pose proof (trailing_skip s2) as T2.
  destruct (run (Re.AnyBut slash) s2) as [|b r'] eqn:R2; [discriminate|].
  intros H. injection H as <- <-.
  exists (skip (Re.AnyBut slash) s2). repeat split; try easy.
  rewrite D, <- S1. f_equal. f_equal.
  change ("/" ++ String b r' ++ skip (Re.AnyBut slash) s2)
    with (String slash (String b r' ++ skip (Re.AnyBut slash) s2)).
  now rewrite S2.
Qed.

(** A match needs the pattern's shape only; the groups then extend to the
    next slash. *)
Lemma match_direct_shape o r post :
  segment o -> segment r ->
  exists r', match_direct (github_prefix ++ o ++ "/" ++ r ++ post) = Some (o, r').
Proof.
  intros Ho [Hr Nr].
  exists (r ++ run (Re.AnyBut slash) post).
  replace (r ++ post)
    with ((r ++ run (Re.AnyBut slash) post) ++ skip (Re.AnyBut slash) post)
    by now rewrite append_assoc, run_skip.
  apply match_direct_intro; [exact Ho | | apply trailing_skip].
  split.
  - destruct r; [contradiction | discriminate].
  - apply no_slash_append; [exact Nr | apply no_slash_run].
Qed.

Lemma search_here r s m : Re.match_here r s = Some m -> Re.search r s = Some m.
Proof. intros H. destruct s; simpl; now rewrite H. Qed.

Lemma search_suffix r pre t m :
  Re.match_here r t = Some m -> exists m', Re.search r (pre ++ t) = Some m'.
Proof.
  intros H. induction pre as [|a pre IH]; simpl.
  - exists m. now apply search_here.
  - destruct (Re.match_here r (String a (pre ++ t))) as [m'|]; [now exists m' | exact IH].
Qed.

Lemma search_leftmost r pre t m :
  (forall pre1 pre2, pre = pre1 ++ pre2 -> pre2 <> "" ->
                     Re.match_here r (pre2 ++ t) = None) ->
  Re.match_here r t = Some m ->
  Re.search r (pre ++ t) = Some m.
Proof.
  intros E H. induction pre as [|a pre IH]; cbn [append].
  - now apply search_here.
  - cbn [Re.search]. change (String a (pre ++ t)) with (String a pre ++ t).
    rewrite (E "" (String a pre) eq_refl) by discriminate.
    apply IH. intros pre1 pre2 -> N. now apply (E (String a pre1) pre2).
Qed.

Lemma search_found r s m :
  Re.search r s = Some m -> exists pre t, s = pre ++ t /\ Re.match_here r t = Some m.
Proof.
  induction s as [|a s IH]; simpl.
  - destruct (Re.match_here r "") eqn:E; [|discriminate].
    intros H; injection H as ->. now exists "", "".
  - destruct (Re.match_here r (String a s)) eqn:E.
    + intros H; injection H as ->. now exists "", (String a s).
    + intros H. destruct (IH H) as (pre & t & -> & Ht).
      now exists (String a pre), t.
Qed.

(** A search that finds a match finds it where no earlier position has one. *)
Lemma search_found_leftmost r s m :
  Re.search r s = Some m ->
  exists pre t,
    s = pre ++ t /\ Re.match_here r t = Some m
    /\ forall pre1 pre2, pre = pre1 ++ pre2 -> pre2 <> "" ->
                         Re.match_here r (pre2 ++ t) = None.
Proof.
  induction s as [|a s IH]; cbn [Re.search].
  - destruct (Re.match_here r "") eqn:E; [|discriminate].
    intros [= ->]. exists "", "". repeat split; [exact E|].
    intros [|? ?] pre2; cbn; [intros <- N; now contradiction N | discriminate].
  - destruct (Re.match_here r (String a s)) eqn:E.
    + intros [= ->]. exists "", (String a s). repeat split; [exact E|].
      intros [|? ?] pre2; cbn; [intros <- N; now contradiction N | discriminate].
    + intros H. destruct (IH H) as (pre & t & -> & Ht & First).
      exists (String a pre), t. repeat split; [exact Ht|].
      intros [|b pre1] pre2; cbn [append].
      * intros <- _. exact E.
      * intros [= _ ->] N. now apply First with pre1.
Qed.

Lemma search_pattern_found url m :
  Re.search pattern url = Some m ->
  contains_repo url /\ exists o r, segment r /\ m = [(2%nat, r); (1%nat, o)].
Proof.
  intros H. apply search_found in H as (pre & t & -> & Ht).
  rewrite match_here_direct in Ht.
  destruct (match_direct t) as [[o r]|] eqn:D; [|discriminate].
  injection Ht as <-.
  apply match_direct_elim in D as (rest & -> & Ho & Hr & _).
  split; [now exists pre, o, r, rest | now exists o, r].
Qed.

Lemma search_pattern_none url :
  Re.search pattern url = None <-> ~ contains_repo url.
Proof.
  split.
  - intros H (pre & o & r & post & -> & Ho & Hr).
    destruct (match_direct_shape o r post Ho Hr) as [r' D].
    destruct (search_suffix pattern pre (github_prefix ++ o ++ "/" ++ r ++ post)
                [(2%nat, r'); (1%nat, o)]) as [m' Hm'].
    + now rewrite match_here_direct, D.
    + congruence.
  - intros H. destruct (Re.search pattern url) as [m|] eqn:E; [|reflexivity].
    apply search_pattern_found in E as [C _]. contradiction.
Qed.

Lemma parse_github_url_none url :
  parse_github_url url = (None, None) <-> ~ contains_repo url.
Proof.
  rewrite <- search_pattern_none. unfold parse_github_url.
  destruct (Re.search pattern url) as [m|] eqn:E.
  - apply search_pattern_found in E as [_ (o & r & _ & ->)].
    simpl. split; discriminate.
  - tauto.
Qed.

Lemma parse_github_url_first pre o r rest :
  segment o -> segment r -> trailing rest ->
  occurs_first pre (github_prefix ++ o ++ "/" ++ r ++ rest) ->
  parse_github_url (pre ++ github_prefix ++ o ++ "/" ++ r ++ rest)
  = (Some o, Some (strip r)).
Proof.
  intros Ho Hr Hrest First. unfold parse_github_url.
  rewrite (search_leftmost pattern pre _ [(2%nat, r); (1%nat, o)]).
  - reflexivity.
  - intros pre1 pre2 Hpre N. rewrite match_here_direct.
    destruct (match_direct _) as [[o' r']|] eqn:D; [|reflexivity].
    apply match_direct_elim in D as (post & D & Ho' & Hr' & _).
    now contradiction (First pre1 pre2 o' r' post).
  - now rewrite match_here_direct, (match_direct_intro o r rest Ho Hr Hrest).
Qed.

Lemma occurs_first_start tail : occurs_first "" tail.
Proof.
  intros pre1 pre2 o r post E N. destruct pre1; [|discriminate].
  simpl in E. now subst.
Qed.

(** ** The steps of the pipeline *)

Lemma get_github_readme_result U o r t :
  step_result (fst (get_github_readme U o r t)).
Proof.
  unfold get_github_readme, bind, http_get, ret. cbn [fst].
  match goal with |- step_result (match ?c with _ => _ end) => destruct c as [[]|v] end;
    solve [ left; eexists; reflexivity | right; eexists; split; reflexivity ].
Qed.

Lemma summarize_readme_result U v t :
  step_result (fst (summarize_readme_with_gemini U v t)).
Proof.
  unfold summarize_readme_with_gemini.
  destruct (falsy v).
  - right. eexists; split; reflexivity.
  - unfold bind, model_text, ret. cbn [fst].
    destruct (generate_content U t _);
      [right; eexists; split; reflexivity | left; eexists; reflexivity].
Qed.

Lemma get_github_file_structure_result U o r t :
  step_result (fst (get_github_file_structure U o r t)).
Proof.
  unfold get_github_file_structure, bind, http_get, ret.
  match goal with
  | |- step_result (fst (match ?c with _ => _ end _)) => destruct c
  end.
  - right. eexists; split; reflexivity.
  - cbn [fst].
    match goal with |- step_result (match ?c with _ => _ end) => destruct c end;
      [right; eexists; split; reflexivity | left; eexists; reflexivity].
Qed.

Lemma analyze_structure_result U v t :
  step_result (fst (analyze_structure_with_gemini U v t)).
Proof.
  unfold analyze_structure_with_gemini.
  destruct (falsy v).
  - right. eexists; split; reflexivity.
  - unfold bind, model_text, ret. cbn [fst].
    destruct (generate_content U t _);
      [right; eexists; split; reflexivity | left; eexists; reflexivity].
Qed.

Lemma get_setup_guide_result U v w t :
  step_result (fst (get_setup_guide_with_gemini U v w t)).
Proof.
  unfold get_setup_guide_with_gemini, bind, model_text, ret. cbn [fst].
  destruct (generate_content U t _);
    [right; eexists; split; reflexivity | left; eexists; reflexivity].
Qed.

(** A step that reports an error reports one that [if error:] sees. *)
Lemma ko_truthy step t e t' :
  step_result (fst (step t)) -> ko step t e t' -> truthy_str (Some e) = true.
Proof.
  intros W [v H]. rewrite H in W. cbn [fst] in W.
  destruct W as [[x W] | (m & W & T)]; [discriminate|].
  now injection W as _ <-.
Qed.

(** Every step either succeeds or fails, in the sense of [ok] and [ko]. *)
Lemma ok_or_ko step t :
  step_result (fst (step t)) ->
  (exists v t', ok step t v t') \/ (exists e t', ko step t e t').
Proof.
  unfold ok, ko. destruct (step t) as [r t'] eqn:E. cbn [fst].
  intros [[v ->] | (e & -> & _)]; [left | right]; eauto.
Qed.

(** ** The analysis pipeline *)

Section AnalyzeRuns.
Variable U : upstream.
Variables (data : json) (url : string) (t0 : trace).
Hypothesis body : dict_get data "repo_url" JNull = inr (JStr url).

Local Ltac enter o r P :=
  destruct P as (Hu & Hp & Ho & Hr);
  unfold analyze_repo_route; rewrite body; cbn [truthy];
  apply String.eqb_neq in Hu; rewrite Hu; cbn [negb];
  rewrite Hp, Ho, Hr; cbn [orb]; unfold bind.

Local Ltac pass H := unfold ok in H; rewrite H; cbn [truthy_str].

Local Ltac stop W H :=
  let T := fresh "T" in
  pose proof (ko_truthy _ _ _ _ W H) as T;
  let v := fresh "v" in destruct H as [v H]; rewrite H, T.

Lemma analyze_stops_at_failure st status e t :
  fails_at U url t0 st status e t ->
  analyze_repo_route U data t0 = (Jsonify (error_json e) status, t).
Proof.
  intros F. destruct F as
    [ E | o r Hu Hp Hf | o r e t1 P K1 | o r rd t1 e t2 P O1 K2
    | o r rd t1 sm t2 e t3 P O1 O2 K3
    | o r rd t1 sm t2 fl t3 e t4 P O1 O2 O3 K4
    | o r rd t1 sm t2 fl t3 an t4 e t5 P O1 O2 O3 O4 K5 ].
  - unfold analyze_repo_route. rewrite body, E. reflexivity.
  - unfold analyze_repo_route. rewrite body. cbn [truthy].
    apply String.eqb_neq in Hu. rewrite Hu. cbn [negb]. now rewrite Hp, Hf.
  - enter o r P.
    stop (get_github_readme_result U o r t0) K1. reflexivity.
  - enter o r P. pass O1.
    stop (summarize_readme_result U (Some rd) t1) K2. reflexivity.
  - enter o r P. pass O1. pass O2.
    stop (get_github_file_structure_result U o r t2) K3. reflexivity.
  - enter o r P. pass O1. pass O2. pass O3.
    stop (analyze_structure_result U (Some fl) t3) K4. reflexivity.
  - enter o r P. pass O1. pass O2. pass O3. pass O4.
    stop (get_setup_guide_result U (Some rd) (Some fl) t4) K5. reflexivity.
Qed.

Lemma analyze_returns_documents summary analysis guide t :
  succeeds U url t0 summary analysis guide t ->
  analyze_repo_route U data t0 = (Jsonify (documents summary analysis guide) 200, t).
Proof.
  intros [o r rd t1 sm t2 fl t3 an t4 gd t5 P O1 O2 O3 O4 O5].
  enter o r P. pass O1. pass O2. pass O3. pass O4. pass O5. reflexivity.
Qed.

Lemma analyze_fails_or_succeeds :
  (exists st status e t, fails_at U url t0 st status e t)
  \/ (exists summary analysis guide t, succeeds U url t0 summary analysis guide t).
Proof.
  destruct (String.eqb_spec url "") as [E | N].
  { left. do 4 eexists. now apply fail_required. }
  destruct (parse_github_url url) as [o r] eqn:Hp.
  destruct (falsy o || falsy r) eqn:Hf.
  { left. do 4 eexists. eapply fail_parse; eauto. }
  apply orb_false_elim in Hf as [Ho Hr].
  assert (P : parsed url o r) by (repeat split; assumption).
  destruct (ok_or_ko _ t0 (get_github_readme_result U o r t0))
    as [(rd & t1 & O1) | (e & t1 & K)].
  2:{ left. do 4 eexists. eapply fail_readme; eauto. }
  destruct (ok_or_ko _ t1 (summarize_readme_result U (Some rd) t1))
    as [(sm & t2 & O2) | (e & t2 & K)].
  2:{ left. do 4 eexists. eapply fail_summary; eauto. }
  destruct (ok_or_ko _ t2 (get_github_file_structure_result U o r t2))
    as [(fl & t3 & O3) | (e & t3 & K)].
  2:{ left. do 4 eexists. eapply fail_structure; eauto. }
  destruct (ok_or_ko _ t3 (analyze_structure_result U (Some fl) t3))
    as [(an & t4 & O4) | (e & t4 & K)].
  2:{ left. do 4 eexists. eapply fail_analysis; eauto. }
  destruct (ok_or_ko _ t4 (get_setup_guide_result U (Some rd) (Some fl) t4))
    as [(gd & t5 & O5) | (e & t5 & K)].
  2:{ left. do 4 eexists. eapply fail_guide; eauto. }
  right. do 4 eexists. eapply all_steps; eauto.
Qed.
End AnalyzeRuns.

(** ** What each step adds to the call log *)

Lemma extends_refl t : extends t t 0 0.
Proof. exists []. rewrite app_nil_r. simpl. split; [reflexivity | lia]. Qed.

Lemma extends_one t c : extends t (t ++ [c])%list 1 1.
Proof. exists [c]. simpl. split; [reflexivity | lia]. Qed.

Lemma extends_trans t1 t2 t3 a b c d :
  extends t1 t2 a b -> extends t2 t3 c d -> extends t1 t3 (a + c) (b + d).
Proof.
  intros (n1 & -> & L1) (n2 & -> & L2). exists (n1 ++ n2)%list.
  rewrite app_assoc, length_app. split; [reflexivity | lia].
Qed.

Lemma extends_weaken t t' a b a' b' :
  extends t t' a b -> (a' <= a)%nat -> (b <= b')%nat -> extends t t' a' b'.
Proof. intros (n & -> & L) Ha Hb. exists n. split; [reflexivity | lia]. Qed.

Lemma get_github_readme_log U o r t :
  extends t (snd (get_github_readme U o r t)) 1 1.
Proof. apply extends_one. Qed.

Lemma summarize_readme_log U v t :
  extends t (snd (summarize_readme_with_gemini U v t)) 0 1.
Proof.
  unfold summarize_readme_with_gemini. destruct (falsy v); cbn.
  - eapply extends_weaken; [apply extends_refl | lia | lia].
  - eapply extends_weaken; [apply extends_one | lia | lia].
Qed.

Lemma get_github_file_structure_log U o r t :
  extends t (snd (get_github_file_structure U o r t)) 1 2.
Proof.
  unfold get_github_file_structure, bind, http_get, ret.
  match goal with
  | |- extends _ (snd (match ?c with _ => _ end _)) _ _ => destruct c
  end; cbn [snd].
  - eapply extends_weaken; [apply extends_one | lia | lia].
  - eapply extends_weaken;
      [eapply extends_trans; apply extends_one | simpl; lia | simpl; lia].
Qed.

Lemma analyze_structure_log U v t :
  extends t (snd (analyze_structure_with_gemini U v t)) 0 1.
Proof.
  unfold analyze_structure_with_gemini. destruct (falsy v); cbn.
  - eapply extends_weaken; [apply extends_refl | lia | lia].
  - eapply extends_weaken; [apply extends_one | lia | lia].
Qed.

Lemma get_setup_guide_log U v w t :
  extends t (snd (get_setup_guide_with_gemini U v w t)) 1 1.
Proof. apply extends_one. Qed.

(** A model-backed step that succeeds has called the model once, and had
    an input that is not empty. *)
Lemma summarize_readme_ok U v t s t' :
  ok (summarize_readme_with_gemini U v) t s t' ->
  falsy v = false /\ extends t t' 1 1.
Proof.
  unfold ok, summarize_readme_with_gemini. destruct (falsy v).
  - discriminate.
  - unfold bind, model_text, ret. intros H. split; [reflexivity|].
    injection H as _ <-. apply extends_one.
Qed.

Lemma analyze_structure_ok U v t s t' :
  ok (analyze_structure_with_gemini U v) t s t' ->
  falsy v = false /\ extends t t' 1 1.
Proof.
  unfold ok, analyze_structure_with_gemini. destruct (falsy v).
  - discriminate.
  - unfold bind, model_text, ret. intros H. split; [reflexivity|].
    injection H as _ <-. apply extends_one.
Qed.

(** A file-structure fetch that succeeds has made both of its calls. *)
Lemma get_github_file_structure_ok U o r t s t' :
  ok (get_github_file_structure U o r) t s t' -> extends t t' 2 2.
Proof.
  unfold ok, get_github_file_structure, bind, http_get, ret.
  match goal with
  | |- (match ?c with _ => _ end _) = _ -> _ => destruct c
  end.
  - discriminate.
  - intros H. injection H as _ <-.
    eapply extends_weaken;
      [eapply extends_trans; apply extends_one | simpl; lia | simpl; lia].
Qed.

Lemma ok_log step t v t' : ok step t v t' -> snd (step t) = t'.
Proof. unfold ok. now intros ->. Qed.

Lemma ko_log step t e t' : ko step t e t' -> snd (step t) = t'.
Proof. intros [v H]. now rewrite H. Qed.

Lemma fails_at_log U url t0 st status e t :
  fails_at U url t0 st status e t -> extends t0 t 0 (calls_up_to st).
Proof.
  intros F. destruct F as
    [ E | o r Hu Hp Hf | o r e t1 P K1 | o r rd t1 e t2 P O1 K2
    | o r rd t1 sm t2 e t3 P O1 O2 K3
    | o r rd t1 sm t2 fl t3 e t4 P O1 O2 O3 K4
    | o r rd t1 sm t2 fl t3 an t4 e t5 P O1 O2 O3 O4 K5 ];
    try apply extends_refl.
  all: pose proof (get_github_readme_log U o r t0) as L1.
  all: try (rewrite (ko_log _ _ _ _ K1) in L1).
  all: try (rewrite (ok_log _ _ _ _ O1) in L1).
  - eapply extends_weaken; [exact L1 | lia | simpl; lia].
  - pose proof (summarize_readme_log U (Some rd) t1) as L2.
    rewrite (ko_log _ _ _ _ K2) in L2.
    eapply extends_weaken; [exact (extends_trans _ _ _ _ _ _ _ L1 L2) | lia | simpl; lia].
  - pose proof (summarize_readme_log U (Some rd) t1) as L2.
    rewrite (ok_log _ _ _ _ O2) in L2.
    pose proof (get_github_file_structure_log U o r t2) as L3.
    rewrite (ko_log _ _ _ _ K3) in L3.
    pose proof (extends_trans _ _ _ _ _ _ _ (extends_trans _ _ _ _ _ _ _ L1 L2) L3) as L.
    eapply extends_weaken; [exact L | lia | simpl; lia].
  - pose proof (summarize_readme_log U (Some rd) t1) as L2.
    rewrite (ok_log _ _ _ _ O2) in L2.
    pose proof (get_github_file_structure_log U o r t2) as L3.
    rewrite (ok_log _ _ _ _ O3) in L3.
    pose proof (analyze_structure_log U (Some fl) t3) as L4.
    rewrite (ko_log _ _ _ _ K4) in L4.
    pose proof (extends_trans _ _ _ _ _ _ _
                  (extends_trans _ _ _ _ _ _ _ (extends_trans _ _ _ _ _ _ _ L1 L2) L3) L4) as L.
    eapply extends_weaken; [exact L | lia | simpl; lia].
  - pose proof (summarize_readme_log U (Some rd) t1) as L2.
    rewrite (ok_log _ _ _ _ O2) in L2.
    pose proof (get_github_file_structure_log U o r t2) as L3.
    rewrite (ok_log _ _ _ _ O3) in L3.
    pose proof (analyze_structure_log U (Some fl) t3) as L4.
    rewrite (ok_log _ _ _ _ O4) in L4.
    pose proof (get_setup_guide_log U (Some rd) (Some fl) t4) as L5.
    rewrite (ko_log _ _ _ _ K5) in L5.
    pose proof (extends_trans _ _ _ _ _ _ _
                  (extends_trans _ _ _ _ _ _ _
                     (extends_trans _ _ _ _ _ _ _ (extends_trans _ _ _ _ _ _ _ L1 L2) L3) L4)
                  L5) as L.
    eapply extends_weaken; [exact L | lia | simpl; lia].
Qed.

Lemma succeeds_log U url t0 summary analysis guide t :
  succeeds U url t0 summary analysis guide t -> extends t0 t 6 6.
Proof.
  intros [o r rd t1 sm t2 fl t3 an t4 gd t5 P O1 O2 O3 O4 O5].
  pose proof (get_github_readme_log U o r t0) as L1.
  rewrite (ok_log _ _ _ _ O1) in L1.
  destruct (summarize_readme_ok _ _ _ _ _ O2) as [_ L2].
  pose proof (get_github_file_structure_ok _ _ _ _ _ _ O3) as L3.
  destruct (analyze_structure_ok _ _ _ _ _ O4) as [_ L4].
  pose proof (get_setup_guide_log U (Some rd) (Some fl) t4) as L5.
  rewrite (ok_log _ _ _ _ O5) in L5.
  exact (extends_trans _ _ _ _ _ _ _
           (extends_trans _ _ _ _ _ _ _
              (extends_trans _ _ _ _ _ _ _ (extends_trans _ _ _ _ _ _ _ L1 L2) L3) L4) L5).
Qed.

(** C1.  A request to analyze a repository is all-or-nothing.  Whichever
    step fails first (URL parse, README fetch, README summary, file-structure
    fetch, structure analysis, setup guide), the response is the error of
    that step alone, with its status, and the call log is the log as that
    step left it: no later step has run and at most the calls up to that
    step were made.  When every step succeeds the three documents are
    returned together, after exactly six upstream calls.  One of the two
    always happens. *)
Theorem analyze_all_or_nothing U data url t0 :
  dict_get data "repo_url" JNull = inr (JStr url) ->
  (forall st status e t,
      fails_at U url t0 st status e t ->
      analyze_repo_route U data t0 = (Jsonify (error_json e) status, t)
      /\ extends t0 t 0 (calls_up_to st))
  /\ (forall summary analysis guide t,
      succeeds U url t0 summary analysis guide t ->
      analyze_repo_route U data t0 = (Jsonify (documents summary analysis guide) 200, t)
      /\ extends t0 t 6 6)
  /\ ((exists st status e t, fails_at U url t0 st status e t)
      \/ (exists summary analysis guide t, succeeds U url t0 summary analysis guide t)).
Proof.
  intros body. split; [|split].
  - intros st status e t F. split.
    + exact (analyze_stops_at_failure U data url t0 body st status e t F).
    + exact (fails_at_log U url t0 st status e t F).
  - intros summary analysis guide t S. split.
    + exact (analyze_returns_documents U data url t0 body summary analysis guide t S).
    + exact (succeeds_log U url t0 summary analysis guide t S).
  - apply analyze_fails_or_succeeds.
Qed.

Lemma analyze_all_or_nothing_witness :
  dict_get sample_body "repo_url" JNull = inr (JStr "https://github.com/octo/atlas")
  /\ (exists t,
        analyze_repo_route sample_model_down sample_body []
        = (Jsonify (error_json "Error generating summary: quota exceeded") 500, t)
        /\ extends [] t 0 2)
  /\ (exists t,
        analyze_repo_route sample_upstream sample_body []
        = (Jsonify (documents "<p>Atlas</p>" "<p>Atlas</p>" "<p>Atlas</p>") 200, t)
        /\ extends [] t 6 6).
Proof.
  split; [reflexivity|].
  destruct (analyze_all_or_nothing sample_model_down sample_body
              "https://github.com/octo/atlas" [] eq_refl) as (F & _ & _).
  destruct (analyze_all_or_nothing sample_upstream sample_body
              "https://github.com/octo/atlas" [] eq_refl) as (_ & S & _).
  assert (P : parsed "https://github.com/octo/atlas" (Some "octo") (Some "atlas"))
    by (repeat split; discriminate).
  split.
  - eexists. apply (F ReadmeSummary).
    eapply (fail_summary _ _ _ _ _ "# Atlas"); [exact P | cbv; reflexivity |].
    eexists. cbv. reflexivity.
  - eexists. apply S.
    eapply all_steps; [exact P | cbv; reflexivity ..].
Defined.

(** ** URL parsing *)

(** C2, as stated, fails: a URL of the shape github.com/{owner}/{repo}
    without the https scheme names a repository and parses to nothing. *)
Lemma parse_github_url_needs_scheme :
  names_repo "github.com/octo/atlas" "octo" "atlas"
  /\ parse_github_url "github.com/octo/atlas" <> (Some "octo", Some (strip "atlas")).
Proof.
  split.
  - exists "", "". repeat split; try discriminate. now left.
  - discriminate.
Qed.

(** C2, amended.  When the first https://github.com/{owner}/{repo} in a
    URL is followed by nothing or by a slash and a trailing path, as in any
    URL that starts with it, parsing yields the pair (owner, repo) with the
    whitespace around repo stripped.  A string that nowhere contains
    https://github.com/{owner}/{repo} parses to no reference, and a request
    to analyze it is answered with status 400 without any upstream call. *)
Theorem parse_github_url_spec (url : string) :
  (forall pre o r rest,
      url = pre ++ github_prefix ++ o ++ "/" ++ r ++ rest ->
      segment o -> segment r -> trailing rest ->
      occurs_first pre (github_prefix ++ o ++ "/" ++ r ++ rest) ->
      parse_github_url url = (Some o, Some (strip r)))
  /\ (forall o r rest,
      url = github_prefix ++ o ++ "/" ++ r ++ rest ->
      segment o -> segment r -> trailing rest ->
      parse_github_url url = (Some o, Some (strip r)))
  /\ (~ contains_repo url ->
      parse_github_url url = (None, None)
      /\ forall U data t0,
          dict_get data "repo_url" JNull = inr (JStr url) ->
          exists e, analyze_repo_route U data t0 = (Jsonify (error_json e) 400, t0)).
Proof.
  split; [|split].
  - intros pre o r rest -> Ho Hr Hrest First. now apply parse_github_url_first.
  - intros o r rest -> Ho Hr Hrest.
    apply (parse_github_url_first "" o r rest Ho Hr Hrest), occurs_first_start.
  - intros N. apply parse_github_url_none in N. split; [exact N|].
    intros U data t0 body.
    destruct (String.eqb_spec url "") as [E | E].
    + eexists. eapply (analyze_stops_at_failure U data url t0 body).
      now apply fail_required.
    + eexists. eapply (analyze_stops_at_failure U data url t0 body).
      eapply fail_parse; [exact E | exact N | reflexivity].
Qed.

Lemma parse_github_url_spec_witness :
  parse_github_url "https://github.com/octo/atlas /tree/main" = (Some "octo", Some "atlas")
  /\ parse_github_url "git@github.com:octo/atlas.git" = (None, None).
Proof.
  split.
  - apply (proj1 (proj2 (parse_github_url_spec "https://github.com/octo/atlas /tree/main"))
             "octo" "atlas " "/tree/main"); try reflexivity.
    + split; [discriminate | reflexivity].
    + split; [discriminate | reflexivity].
    + right. now exists "tree/main".
  - apply (proj2 (proj2 (parse_github_url_spec "git@github.com:octo/atlas.git"))).
    apply parse_github_url_none. reflexivity.
Defined.

(** C10, as stated, fails.  Text right after an occurrence of
    https://github.com/{owner}/{repo} becomes part of the name, so the pair
    produced is not the (owner, repo) of that occurrence; and a repo segment
    of only whitespace is an occurrence for which the name produced is
    empty, which the request to analyze answers with 400. *)
Lemma parse_github_url_not_the_occurrence :
  (segment "octo" /\ segment "atlas"
   /\ parse_github_url ("" ++ github_prefix ++ "octo" ++ "/" ++ "atlas" ++ "-fork")
      <> (Some "octo", Some "atlas"))
  /\ (contains_repo "https://github.com/octo/ "
      /\ parse_github_url "https://github.com/octo/ " = (Some "octo", Some "")
      /\ forall U t0,
          analyze_repo_route U (JObj [("repo_url", JStr "https://github.com/octo/ ")]) t0
          = (Jsonify (error_json "Invalid GitHub URL") 400, t0)).
Proof.
  split; [|split; [|split]].
  - repeat split; discriminate.
  - exists "", "octo", " ", "". repeat split; discriminate.
  - reflexivity.
  - intros U t0.
    apply (analyze_stops_at_failure U (JObj [("repo_url", JStr "https://github.com/octo/ ")])
             "https://github.com/octo/ " t0 eq_refl UrlParse).
    eapply fail_parse; [discriminate | reflexivity | reflexivity].
Qed.

(** C10, amended.  Parsing is a search for https://github.com/{owner}/{repo}:
    it yields a pair exactly when that text occurs somewhere in the input,
    with any text before it, and yields nothing when the https:// scheme is
    missing, as in github.com/o/r and http://github.com/o/r.  The pair it
    yields is the one of the first occurrence, with owner and repo each
    running up to the next slash or the end of the input, so that text right
    after an occurrence belongs to the name; the name is then stripped of
    the whitespace around it, and when nothing is left the request to
    analyze is answered 400 without any upstream call. *)
Theorem parse_github_url_leftmost (url : string) :
  (parse_github_url url = (None, None) <-> ~ contains_repo url)
  /\ (contains_repo url ->
      exists pre o r rest,
        url = pre ++ github_prefix ++ o ++ "/" ++ r ++ rest
        /\ segment o /\ segment r /\ trailing rest
        /\ occurs_first pre (github_prefix ++ o ++ "/" ++ r ++ rest)
        /\ parse_github_url url = (Some o, Some (strip r)))
  /\ (forall pre o r rest,
        url = pre ++ github_prefix ++ o ++ "/" ++ r ++ rest ->
        segment o -> segment r -> trailing rest ->
        occurs_first pre (github_prefix ++ o ++ "/" ++ r ++ rest) ->
        parse_github_url url = (Some o, Some (strip r)))
  /\ (forall o U data t0,
        parse_github_url url = (Some o, Some "") ->
        dict_get data "repo_url" JNull = inr (JStr url) ->
        analyze_repo_route U data t0
        = (Jsonify (error_json "Invalid GitHub URL") 400, t0))
  /\ parse_github_url "github.com/o/r" = (None, None)
  /\ parse_github_url "http://github.com/o/r" = (None, None).
Proof.
  split; [apply parse_github_url_none|].
  split; [|split; [|split; [|split; reflexivity]]].
  - intros C.
    destruct (Re.search pattern url) as [m|] eqn:E;
      [|apply search_pattern_none in E; contradiction].
    apply search_found_leftmost in E as (pre & t & Hurl & Ht & First).
    rewrite match_here_direct in Ht.
    destruct (match_direct t) as [[o r]|] eqn:D; [|discriminate].
    apply match_direct_elim in D as (rest & -> & Ho & Hr & Hrest).
    assert (F : occurs_first pre (github_prefix ++ o ++ "/" ++ r ++ rest)).
    { intros pre1 pre2 o' r' post Hpre N Ho' Hr' Eq.
      specialize (First pre1 pre2 Hpre N). rewrite Eq, match_here_direct in First.
      destruct (match_direct_shape o' r' post Ho' Hr') as [r'' D'].
      rewrite D' in First. discriminate. }
    exists pre, o, r, rest. repeat split; try assumption; try apply Ho; try apply Hr.
    rewrite Hurl. now apply parse_github_url_first.
  - intros pre o r rest -> Ho Hr Hrest F. now apply parse_github_url_first.
  - intros o U data t0 P body.
    apply (analyze_stops_at_failure U data url t0 body UrlParse).
    destruct (String.eqb_spec url "") as [-> | N]; [discriminate|].
    eapply fail_parse; [exact N | exact P | apply orb_true_r].
Qed.

Lemma parse_github_url_leftmost_witness :
  parse_github_url "see https://github.com/octo/atlas?tab=readme /x"
  = (Some "octo", Some "atlas?tab=readme").
Proof.
  apply (proj1 (proj2 (proj2 (parse_github_url_leftmost
                                "see https://github.com/octo/atlas?tab=readme /x")))
           "see " "octo" "atlas?tab=readme " "/x").
  - reflexivity.
  - split; [discriminate | reflexivity].
  - split; [discriminate | reflexivity].
  - right. now exists "x".
  - intros pre1 pre2 o r post Hpre N _ _ Eq.
    destruct pre1 as [|c1 [|c2 [|c3 [|c4 [|c5 pre1]]]]]; cbn in Hpre;
      try discriminate; inversion Hpre; subst;
      solve [discriminate Eq | now contradiction N].
Defined.

(** ** Model-backed steps and empty input *)

(** C5, as stated, fails for the setup guide: on empty README and empty
    file structure it calls the model and reports no error. *)
Lemma setup_guide_ignores_empty_input :
  falsy (Some "") = true
  /\ get_setup_guide_with_gemini sample_upstream (Some "") (Some "") []
     = ((Some "<p>Atlas</p>", None), [Generate (setup_guide_prompt (Some "") (Some ""))]).
Proof. split; reflexivity. Qed.

(** C5, amended.  The README summary and the structure analysis answer an
    empty input ([None] or the empty string) with their error message
    without calling the model.  The setup guide has no such check: it
    calls the model on whatever it is given and fails only when that call
    fails.  Inside the pipeline it is reached only after the other two
    steps have succeeded, hence with a README and a file structure that are
    not empty. *)
Theorem model_steps_on_empty_input U (t : trace) :
  (forall v, falsy v = true ->
     summarize_readme_with_gemini U v t = ((None, Some "README content is empty."), t))
  /\ (forall v, falsy v = true ->
     analyze_structure_with_gemini U v t = ((None, Some "File structure is empty."), t))
  /\ (forall readme files,
     get_setup_guide_with_gemini U readme files t
     = (match generate_content U t (setup_guide_prompt readme files) with
        | inr text => (Some (markdown U text), None)
        | inl e => (None, Some ("Error generating setup guide: " ++ str_exn U e))
        end,
        (t ++ [Generate (setup_guide_prompt readme files)])%list))
  /\ (forall o r t0 readme t1 summary t2 files t3 analysis,
     ok (get_github_readme U o r) t0 readme t1 ->
     ok (summarize_readme_with_gemini U (Some readme)) t1 summary t2 ->
     ok (get_github_file_structure U o r) t2 files t3 ->
     ok (analyze_structure_with_gemini U (Some files)) t3 analysis t ->
     readme <> "" /\ files <> "").
Proof.
  split; [|split; [|split]].
  - intros v F. unfold summarize_readme_with_gemini. now rewrite F.
  - intros v F. unfold analyze_structure_with_gemini. now rewrite F.
  - reflexivity.
  - intros o r t0 readme t1 summary t2 files t3 analysis _ O2 _ O4.
    apply summarize_readme_ok in O2 as [F2 _].
    apply analyze_structure_ok in O4 as [F4 _].
    unfold falsy, truthy_str in F2, F4.
    rewrite negb_involutive in F2, F4.
    split; now apply String.eqb_neq.
Qed.

Lemma model_steps_on_empty_input_witness :
  summarize_readme_with_gemini sample_upstream (Some "") []
  = ((None, Some "README content is empty."), [])
  /\ analyze_structure_with_gemini sample_upstream None []
     = ((None, Some "File structure is empty."), []).
Proof.
  split.
  - apply (proj1 (model_steps_on_empty_input sample_upstream [])). reflexivity.
  - apply (proj1 (proj2 (model_steps_on_empty_input sample_upstream []))). reflexivity.
Defined.

(** ** The file structure *)

Lemma blob_paths_filter items files :
  blob_paths items = inr files ->
  files = map (fun item => match subscript item "path" with inr p => p | inl _ => JNull end)
              (filter is_blob items).
Proof.
  revert files. induction items as [|item items IH]; intros files.
  - simpl. now intros [= <-].
  - cbn [blob_paths filter]. unfold is_blob at 1.
    destruct (subscript item "type") as [e|ty]; cbn [try_bind]; [discriminate|].
    destruct (eq_str ty "blob"); [|apply IH].
    destruct (subscript item "path") as [e|p] eqn:P; cbn [try_bind]; [discriminate|].
    destruct (blob_paths items) as [e|paths]; cbn [try_bind]; [discriminate|].
    intros [= <-]. cbn [map]. now rewrite P, <- (IH paths eq_refl).
Qed.

Lemma all_str_map (l : list json) (ss : list string) :
  all_str l = inr ss ->
  ss = map (fun v => match v with JStr s => s | _ => "" end) l.
Proof.
  revert ss. induction l as [|v l IH]; intros ss; simpl.
  - now intros [= <-].
  - destruct v; try discriminate.
    destruct (all_str l) as [e|ss']; simpl; [discriminate|].
    intros [= <-]. now rewrite <- (IH ss' eq_refl).
Qed.

Lemma join_blob_paths items files text :
  blob_paths items = inr files ->
  join_json nl (firstn 200 files) = inr text ->
  text = file_listing items.
Proof.
  intros B J. apply blob_paths_filter in B. subst files.
  unfold join_json in J.
  destruct (all_str _) as [e|ss] eqn:A; simpl in J; [discriminate|].
  injection J as <-. apply all_str_map in A. subst ss.
  unfold file_listing. f_equal.
  rewrite <- firstn_map, !map_map. f_equal.
  apply map_ext. intros item. unfold path_of.
  now destruct (subscript item "path") as [e|[]].
Qed.

(** C6.  When the file-structure fetch succeeds, GitHub has answered the
    repository request with a default branch and the request for the
    recursive tree of that branch with a tree, and the text returned is
    made of the entries of that tree whose type is "blob", at most the
    first 200 of them in the order returned, their paths joined by
    newlines. *)
Theorem file_structure_lists_blobs U owner repo t text t' :
  ok (get_github_file_structure U owner repo) t text t' ->
  exists info info_body branch resp body tree items,
    requests_get U t (repo_api_url owner repo) (auth_headers U) 10 = inr info
    /\ json_body info = inr info_body
    /\ subscript info_body "default_branch" = inr branch
    /\ requests_get U (t ++ [HttpGet (repo_api_url owner repo) (auth_headers U) 10])%list
         (tree_api_url owner repo (fmt_json U branch)) (auth_headers U) 15 = inr resp
    /\ json_body resp = inr body
    /\ subscript body "tree" = inr tree
    /\ py_iter tree = inr items
    /\ text = file_listing items.
Proof.
  unfold ok, get_github_file_structure, bind, http_get, ret.
  fold (repo_api_url owner repo).
  destruct (requests_get U t (repo_api_url owner repo) (auth_headers U) 10)
    as [e|info] eqn:G1; cbn [try_bind]; [discriminate|].
  destruct (raise_for_status info) as [e|[]]; cbn [try_bind]; [discriminate|].
  destruct (json_body info) as [e|info_body] eqn:J1; cbn [try_bind]; [discriminate|].
  destruct (subscript info_body "default_branch") as [e|branch] eqn:S1; [discriminate|].
  fold (tree_api_url owner repo (fmt_json U branch)).
  destruct (requests_get U _ (tree_api_url owner repo (fmt_json U branch)) _ 15)
    as [e|resp] eqn:G2; cbn [try_bind]; [discriminate|].
  destruct (raise_for_status resp) as [e|[]]; cbn [try_bind]; [discriminate|].
  destruct (json_body resp) as [e|body] eqn:J2; cbn [try_bind]; [discriminate|].
  destruct (subscript body "tree") as [e|tree] eqn:S2; cbn [try_bind]; [discriminate|].
  destruct (py_iter tree) as [e|items] eqn:I; cbn [try_bind]; [discriminate|].
  destruct (blob_paths items) as [e|files] eqn:B; cbn [try_bind]; [discriminate|].
  destruct (join_json nl (firstn 200 files)) as [e|text'] eqn:J; [discriminate|].
  intros H. injection H as <- <-.
  exists info, info_body, branch, resp, body, tree, items.
  repeat split; try assumption.
  eapply join_blob_paths; eassumption.
Qed.

Lemma file_structure_lists_blobs_witness :
  let step := get_github_file_structure sample_upstream (Some "octo") (Some "atlas") in
  let t := [HttpGet "" [] 0; Generate ""] in
  ok step t ("README.md" ++ nl ++ "src/app.py") (snd (step t))
  /\ exists items, "README.md" ++ nl ++ "src/app.py" = file_listing items.
Proof.
  intros step t.
  assert (H : ok step t ("README.md" ++ nl ++ "src/app.py") (snd (step t)))
    by (vm_compute; reflexivity).
  split; [exact H|].
  destruct (file_structure_lists_blobs _ _ _ _ _ _ H)
    as (_ & _ & _ & _ & _ & _ & items & _ & _ & _ & _ & _ & _ & _ & E).
  now exists items.
Defined.

(** ** The trending search *)

Lemma toordinal_minus_days (now n : Z) :
  toordinal (now - timedelta_days n) = toordinal now - n.
Proof.
  unfold toordinal, timedelta_days.
  replace (now - n * us_per_day) with (now + (- n) * us_per_day) by lia.
  rewrite Z.div_add by (unfold us_per_day; lia). lia.
Qed.

Lemma strftime_ymd_created (t : datetime) :
  "created:>" ++ strftime_ymd t = created_after (ord2ymd (toordinal t)).
Proof.
  unfold strftime_ymd, created_after.
  now destruct (ord2ymd (toordinal t)) as [[y m] d].
Qed.

Lemma trending_entries_project rs result :
  trending_entries rs = inr result -> Forall2 projects rs result.
Proof.
  revert result. induction rs as [|r rs IH]; intros result; simpl.
  - intros [= <-]. constructor.
  - destruct (trending_entry r) as [e|entry] eqn:E; cbn [try_bind]; [discriminate|].
    destruct (trending_entries rs) as [e|entries]; cbn [try_bind]; [discriminate|].
    intros [= <-]. constructor; [|now apply IH].
    unfold trending_entry in E.
    destruct (subscript r "full_name") as [e|name] eqn:E1; cbn [try_bind] in E;
      [discriminate|].
    destruct (subscript r "html_url") as [e|url] eqn:E2; cbn [try_bind] in E;
      [discriminate|].
    destruct (subscript r "stargazers_count") as [e|stars] eqn:E3; cbn [try_bind] in E;
      [discriminate|].
    destruct (subscript r "description") as [e|description] eqn:E4; cbn [try_bind] in E;
      [discriminate|].
    destruct (subscript r "forks_count") as [e|forks] eqn:E5; cbn [try_bind] in E;
      [discriminate|].
    injection E as <-.
    exists name, url, stars, description, forks. now repeat split.
Qed.

(** C3, as stated, fails twice.  A search term goes into the URL as it
    is, so its [&] is not escaped; and the list returned is whatever the
    search answered, here thirteen entries with the fewest stars first. *)
Lemma trending_is_neither_escaped_nor_capped :
  trending_url (Some "a&b") sample_now
  = search_base ++ "a&b+created:>2024-11-03" ++ search_tail
  /\ trending_url (Some "a&b") sample_now
     <> escaped_search_url (trending_q (Some "a&b") sample_now)
  /\ exists result t,
      trending_repos_route thirteen_hits None sample_now [] = (Jsonify (JArr result) 200, t)
      /\ List.length result = 13%nat
      /\ stars_descending result = false.
Proof.
  split; [vm_compute; reflexivity|].
  split; [vm_compute; discriminate|].
  eexists. eexists. split; [vm_compute; reflexivity|].
  split; vm_compute; reflexivity.
Qed.

(** C3, amended.  At time [now] the query has the search term first when
    one was supplied and is not empty, and always ends with the token
    created:>D where D is the calendar day 730 days before [now].  The
    tokens are joined by [+] and put into the URL as they are, together
    with sort=stars, order=desc and per_page=12; that URL is called once.
    When the answer is a list, its entries are the projections
    {name: full_name, url: html_url, stars: stargazers_count,
     description (the empty string when null or empty), forks: forks_count}
    of the search hits, one for each hit and in the order GitHub gave them:
    capping at 12 and sorting by stars are left to GitHub. *)
Theorem trending_query_and_projection U search_query now t resp t' :
  0 <= now - timedelta_days 730 ->
  trending_repos_route U search_query now t = (resp, t') ->
  let created := created_after (ord2ymd (toordinal now - 730)) in
  (forall term, search_query = Some term -> term <> "" ->
                trending_q search_query now = [term; created])
  /\ (truthy_str search_query = false -> trending_q search_query now = [created])
  /\ trending_url search_query now
     = search_base ++ join "+" (trending_q search_query now) ++ search_tail
  /\ t' = (t ++ [HttpGet (trending_url search_query now) (auth_headers U) 15])%list
  /\ (forall result,
        resp = Jsonify (JArr result) 200 ->
        exists info body items hits,
          requests_get U t (trending_url search_query now) (auth_headers U) 15 = inr info
          /\ json_body info = inr body
          /\ dict_get body "items" (JArr []) = inr items
          /\ py_iter items = inr hits
          /\ Forall2 projects hits result).
Proof.
  intros Hnow Hrun created.
  assert (Hc : "created:>" ++ strftime_ymd (now - timedelta_days 730) = created)
    by (rewrite strftime_ymd_created, toordinal_minus_days; reflexivity).
  split; [|split; [|split; [|split]]].
  - intros term -> Hterm. unfold trending_q. cbn [truthy_str].
    apply String.eqb_neq in Hterm. rewrite Hterm, Hc. reflexivity.
  - intros F. unfold trending_q. rewrite F, Hc. reflexivity.
  - reflexivity.
  - unfold trending_repos_route in Hrun.
    destruct (now - timedelta_days 730 <? 0) eqn:E; [apply Z.ltb_lt in E; lia|].
    unfold bind, http_get, ret in Hrun. now injection Hrun as _ <-.
  - intros result ->. unfold trending_repos_route in Hrun.
    destruct (now - timedelta_days 730 <? 0) eqn:E; [apply Z.ltb_lt in E; lia|].
    unfold bind, http_get, ret in Hrun. injection Hrun as Hresp _.
    destruct (requests_get U t (trending_url search_query now) (auth_headers U) 15)
      as [e|info] eqn:G; cbn [try_bind] in Hresp; [discriminate|].
    destruct (raise_for_status info) as [e|[]]; cbn [try_bind] in Hresp; [discriminate|].
    destruct (json_body info) as [e|body] eqn:J; cbn [try_bind] in Hresp; [discriminate|].
    destruct (dict_get body "items" (JArr [])) as [e|items] eqn:D; cbn [try_bind] in Hresp;
      [discriminate|].
    destruct (py_iter items) as [e|hits] eqn:I; cbn [try_bind] in Hresp; [discriminate|].
    destruct (trending_entries hits) as [e|entries] eqn:T; [discriminate|].
    injection Hresp as <-.
    exists info, body, items, hits. repeat split; try assumption.
    now apply trending_entries_project.
Qed.

Lemma trending_query_and_projection_witness :
  trending_q (Some "ml") sample_now = ["ml"; "created:>2024-11-03"]
  /\ trending_url (Some "ml") sample_now
     = search_base ++ "ml+created:>2024-11-03" ++ search_tail.
Proof.
  assert (Hnow : 0 <= sample_now - timedelta_days 730) by (vm_compute; discriminate).
  destruct (trending_query_and_projection sample_upstream (Some "ml") sample_now [] _ _
              Hnow eq_refl) as (Q & _ & Hu & _).
  split.
  - exact (Q "ml" eq_refl ltac:(discriminate)).
  - rewrite Hu, (Q "ml" eq_refl ltac:(discriminate)). reflexivity.
Defined.

(** ** The idea board: ordering *)

Lemma insert_desc_perm p l : Permutation (insert_desc p l) (p :: l).
Proof.
  induction l as [|q l IH]; simpl; [reflexivity|].
  destruct (Post.timestamp q <=? Post.timestamp p); [reflexivity|].
  rewrite IH. apply perm_swap.
Qed.

Lemma order_by_perm rows : Permutation (order_by_timestamp_desc rows) rows.
Proof.
  induction rows as [|p rows IH]; simpl; [reflexivity|].
  rewrite insert_desc_perm. now constructor.
Qed.

Lemma insert_desc_sorted p l :
  StronglySorted newer_first l -> StronglySorted newer_first (insert_desc p l).
Proof.
  induction 1 as [|q l S IH F]; simpl.
  - repeat constructor.
  - destruct (Post.timestamp q <=? Post.timestamp p) eqn:E.
    + apply Z.leb_le in E. constructor; [now constructor|].
      constructor; [exact E|].
      eapply Forall_impl; [|exact F]. unfold newer_first. intros; lia.
    + apply Z.leb_gt in E. constructor; [exact IH|].
      eapply Permutation_Forall; [symmetry; apply insert_desc_perm|].
      constructor; [unfold newer_first; lia | exact F].
Qed.

Lemma order_by_sorted rows : StronglySorted newer_first (order_by_timestamp_desc rows).
Proof.
  induction rows as [|p rows IH]; simpl; [constructor | now apply insert_desc_sorted].
Qed.

(** Two lists of the same posts, both most recent first, are the same list
    when no two of the posts share a timestamp. *)
Lemma newer_first_unique l l' :
  (forall p q, In p l -> In q l -> Post.timestamp p = Post.timestamp q -> p = q) ->
  StronglySorted newer_first l -> StronglySorted newer_first l' ->
  Permutation l l' -> l = l'.
Proof.
  intros Inj S. revert l'. induction S as [|a l S IH F]; intros l' S' P.
  - now apply Permutation_nil in P.
  - destruct S' as [|b l' S' F'].
    + symmetry in P. now apply Permutation_nil in P.
    + assert (a = b) as <-.
      { assert (Ia : In a (b :: l')) by (eapply Permutation_in; [exact P | now left]).
        assert (Ib : In b (a :: l))
          by (eapply Permutation_in; [symmetry; exact P | now left]).
        destruct Ia as [-> | Ia]; [reflexivity|].
        destruct Ib as [-> | Ib]; [reflexivity|].
        rewrite Forall_forall in F, F'.
        pose proof (F _ Ib) as H1. pose proof (F' _ Ia) as H2.
        unfold newer_first in H1, H2.
        apply Inj; [now left | now right | lia]. }
      f_equal. apply IH; [|exact S' | now apply Permutation_cons_inv in P].
      intros p q Ip Iq. apply Inj; now right.
Qed.

Lemma order_by_three (p1 p2 p3 : Post.t) rows :
  Post.timestamp p1 < Post.timestamp p2 -> Post.timestamp p2 < Post.timestamp p3 ->
  Permutation rows [p1; p2; p3] ->
  order_by_timestamp_desc rows = [p3; p2; p1].
Proof.
  intros H12 H23 P.
  assert (P' : Permutation (order_by_timestamp_desc rows) [p3; p2; p1]).
  { rewrite order_by_perm, P.
    change [p3; p2; p1] with (rev [p1; p2; p3]). apply Permutation_rev. }
  apply newer_first_unique; [| apply order_by_sorted | | exact P'].
  - intros p q Ip Iq E.
    apply (Permutation_in _ P') in Ip. apply (Permutation_in _ P') in Iq.
    simpl in Ip, Iq.
    destruct Ip as [<- | [<- | [<- | []]]]; destruct Iq as [<- | [<- | [<- | []]]];
      solve [reflexivity | lia].
  - unfold newer_first. repeat constructor; lia.
Qed.

Lemma post_summary_summarizes db p : summarizes db p (post_summary db p).
Proof. repeat split. Qed.

(** C7.  Listing the posts answers with one summary for each post of the
    store, the most recent first: a post never stands before one that was
    created later, so posts created at t1 < t2 < t3 come back in the order
    t3, t2, t1, however they lie in the store.  Each summary carries the
    post's fields and a comments_count that is the number of comments whose
    post_id is that post's id at the time of the read. *)
Theorem get_posts_most_recent_first (db : database) :
  exists rows,
    get_posts None db = Jsonify (JArr (map (post_summary db) rows)) 200
    /\ Permutation rows (posts db)
    /\ StronglySorted newer_first rows
    /\ Forall2 (summarizes db) rows (map (post_summary db) rows)
    /\ (forall p1 p2 p3,
          Post.timestamp p1 < Post.timestamp p2 ->
          Post.timestamp p2 < Post.timestamp p3 ->
          Permutation (posts db) [p1; p2; p3] ->
          rows = [p3; p2; p1]).
Proof.
  exists (order_by_timestamp_desc (posts db)).
  split; [reflexivity|].
  split; [apply order_by_perm|].
  split; [apply order_by_sorted|].
  split.
  - induction (order_by_timestamp_desc (posts db)) as [|p l IH]; simpl; constructor;
      [apply post_summary_summarizes | exact IH].
  - intros p1 p2 p3 H12 H23 P. now apply order_by_three.
Qed.

Lemma get_posts_most_recent_first_witness :
  let post i t := {| Post.id := i; Post.repo_name := "r"; Post.idea := "i";
                     Post.timestamp := t |} in
  let db := {| posts := [post 1 20; post 2 10; post 3 30];
               comments := [{| Comment.id := 1; Comment.text := "nice";
                               Comment.timestamp := 40; Comment.post_id := 3 |}] |} in
  get_posts None db
  = Jsonify (JArr (map (post_summary db) [post 3 30; post 1 20; post 2 10])) 200.
Proof.
  intros post db.
  destruct (get_posts_most_recent_first db) as (rows & R & _ & _ & _ & T).
  rewrite R. do 3 f_equal.
  apply (T (post 2 10) (post 1 20) (post 3 30)); cbn; try lia.
  apply perm_swap.
Defined.

(** C8.  Starting from the empty store, creating the post ("repoA",
    "ideaX") and then listing the posts returns exactly one entry, with
    repo_name "repoA", idea "ideaX" and comments_count 0. *)
Theorem create_then_list (now : datetime) :
  exists db entry,
    add_post (JObj [("repo_name", JStr "repoA"); ("idea", JStr "ideaX")]) now None empty_db
    = (created_201, db)
    /\ get_posts None db = Jsonify (JArr [entry]) 200
    /\ subscript entry "repo_name" = inr (JStr "repoA")
    /\ subscript entry "idea" = inr (JStr "ideaX")
    /\ subscript entry "comments_count" = inr (JNum 0).
Proof.
  eexists. eexists. split; [reflexivity|].
  split; [reflexivity|]. repeat split.
Qed.

(** ** The idea board: writes *)

Lemma str_of_Z_nonempty (n : Z) : str_of_Z n <> "".
Proof.
  unfold str_of_Z, NilZero.string_of_int.
  destruct (Z.to_int n) as [d|d]; [|discriminate].
  unfold NilZero.string_of_uint. destruct d; discriminate.
Qed.

Example str_of_Z_404 : str_of_Z 404 = "404".
Proof. reflexivity. Qed.

Lemma bind_text_nonempty v s : truthy v = true -> bind_text v = inr s -> s <> "".
Proof.
  destruct v as [|b|n|x|l|l]; cbn [truthy bind_text]; try discriminate.
  - intros -> [= <-]. discriminate.
  - intros _. destruct ((- 2 ^ 63 <=? n) && (n <? 2 ^ 63)); [|discriminate].
    intros [= <-]. apply str_of_Z_nonempty.
  - intros T [= <-]. apply negb_true_iff in T. now apply String.eqb_neq.
Qed.

(** A commit that fails leaves the file as it was. *)
Lemma session_commit_failure now fault s e s' :
  session_commit now fault s = (inl e, s') -> durable s' = durable s.
Proof.
  unfold session_commit.
  destruct (flush now (pending s) (working s)) as [e'|written].
  - now intros [= _ <-].
  - destruct fault; [now intros [= _ <-] | discriminate].
Qed.

(** A fault of the database makes the commit fail. *)
Lemma session_commit_fault now e s :
  exists e' s', session_commit now (Some e) s = (inl e', s').
Proof.
  unfold session_commit.
  destruct (flush now (pending s) (working s)); eauto.
Qed.

(** A commit that succeeds adds exactly the pending post. *)
Lemma session_commit_one now fault repo_name idea db s' :
  session_commit now fault (session_add repo_name idea (open_session db)) = (inr tt, s') ->
  exists r i,
    bind_text repo_name = inr r /\ bind_text idea = inr i
    /\ durable s' = {| posts := (posts db
                                 ++ [{| Post.id := next_id (posts db); Post.repo_name := r;
                                        Post.idea := i; Post.timestamp := now |}])%list;
                       comments := comments db |}.
Proof.
  unfold session_commit, session_add, open_session, flush, insert_post. cbn.
  destruct (bind_text repo_name) as [e|r]; cbn; [discriminate|].
  destruct (bind_text idea) as [e|i]; cbn; [discriminate|].
  destruct fault; [discriminate|].
  intros [= <-]. now exists r, i.
Qed.

(** C4.  Creating a post leaves the store as it was whenever the answer
    is not the 201 of a created post.  A body whose repo_name or idea is
    missing or empty is answered with 400 and nothing is written.  When the
    commit fails, and it fails whenever the database has a fault, the
    session is rolled back to the clean state over the unchanged store and
    the answer is 500. *)
Theorem add_post_error_leaves_store data now fault db resp db' :
  add_post data now fault db = (resp, db') ->
  (resp <> created_201 -> db' = db)
  /\ (forall fields,
        data = JObj fields ->
        truthy (field "repo_name" fields) && truthy (field "idea" fields) = false ->
        resp = missing_400 /\ db' = db)
  /\ (forall fields e s',
        data = JObj fields ->
        truthy (field "repo_name" fields) && truthy (field "idea" fields) = true ->
        session_commit now fault
          (session_add (field "repo_name" fields) (field "idea" fields) (open_session db))
        = (inl e, s') ->
        resp = database_500 /\ db' = db /\ session_rollback s' = open_session db)
  /\ (forall fields e,
        data = JObj fields ->
        truthy (field "repo_name" fields) && truthy (field "idea" fields) = true ->
        fault = Some e ->
        resp = database_500 /\ db' = db).
Proof.
  intros Hrun.
  assert (Obj : forall fields, data = JObj fields ->
            (resp, db')
            = if truthy (field "repo_name" fields) && truthy (field "idea" fields)
              then match session_commit now fault
                           (session_add (field "repo_name" fields) (field "idea" fields)
                              (open_session db)) with
                   | (inr _, s') => (created_201, durable s')
                   | (inl _, s') => (database_500, durable (session_rollback s'))
                   end
              else (missing_400, db)).
  { intros fields ->. rewrite <- Hrun. unfold add_post, dict_get, field.
    destruct (assoc "repo_name" fields), (assoc "idea" fields); reflexivity. }
  split; [|split; [|split]].
  - intros Herr. unfold add_post in Hrun.
    destruct (dict_get data "repo_name" JNull) as [e|repo_name]; [now injection Hrun|].
    destruct (dict_get data "idea" JNull) as [e|idea]; [now injection Hrun|].
    destruct (truthy repo_name && truthy idea); [|now injection Hrun].
    destruct (session_commit now fault _) as [[e|u] s'] eqn:C.
    + injection Hrun as _ <-. cbn. now rewrite (session_commit_failure _ _ _ _ _ C).
    + injection Hrun as <- _. now contradiction Herr.
  - intros fields Hd F. specialize (Obj fields Hd). rewrite F in Obj.
    now injection Obj as -> ->.
  - intros fields e s' Hd T C. specialize (Obj fields Hd). rewrite T, C in Obj.
    injection Obj as -> ->.
    pose proof (session_commit_failure _ _ _ _ _ C) as D. cbn in D.
    unfold session_rollback, open_session. rewrite D. now repeat split.
  - intros fields e Hd T ->. specialize (Obj fields Hd). rewrite T in Obj.
    destruct (session_commit_fault now e
                (session_add (field "repo_name" fields) (field "idea" fields)
                   (open_session db))) as (e' & s' & C).
    rewrite C in Obj. injection Obj as -> ->. split; [reflexivity|].
    cbn. now rewrite (session_commit_failure _ _ _ _ _ C).
Qed.

Lemma add_post_error_leaves_store_witness :
  let db := {| posts := [{| Post.id := 1; Post.repo_name := "octo/atlas";
                            Post.idea := "add a map"; Post.timestamp := 5 |}];
               comments := [] |} in
  add_post (JObj [("repo_name", JStr ""); ("idea", JStr "idea")]) 9 None db = (missing_400, db)
  /\ add_post (JObj [("repo_name", JStr "repo"); ("idea", JStr "idea")]) 9
       (Some (Raised "database is locked")) db = (database_500, db).
Proof.
  intros db. split.
  - destruct (add_post (JObj [("repo_name", JStr ""); ("idea", JStr "idea")]) 9 None db)
      as [resp db'] eqn:R.
    destruct (add_post_error_leaves_store _ _ _ _ _ _ R) as (_ & V & _).
    destruct (V _ eq_refl eq_refl) as [-> ->]. reflexivity.
  - destruct (add_post (JObj [("repo_name", JStr "repo"); ("idea", JStr "idea")]) 9
                (Some (Raised "database is locked")) db) as [resp db'] eqn:R.
    destruct (add_post_error_leaves_store _ _ _ _ _ _ R) as (_ & _ & _ & S).
    destruct (S _ _ eq_refl eq_refl eq_refl) as [-> ->]. reflexivity.
Defined.

(** ** The store invariant *)

(** A request to create a post writes nothing or appends one filled post. *)
Lemma add_post_store data now fault db :
  snd (add_post data now fault db) = db
  \/ exists p,
      filled p
      /\ fst (add_post data now fault db) = created_201
      /\ posts (snd (add_post data now fault db)) = (posts db ++ [p])%list
      /\ comments (snd (add_post data now fault db)) = comments db.
Proof.
  unfold add_post.
  destruct (dict_get data "repo_name" JNull) as [e|repo_name]; [now left|].
  destruct (dict_get data "idea" JNull) as [e|idea]; [now left|].
  destruct (truthy repo_name && truthy idea) eqn:T; [|now left].
  apply andb_prop in T as [Tr Ti].
  destruct (session_commit now fault _) as [[e|[]] s'] eqn:C.
  - left. cbn. now rewrite (session_commit_failure _ _ _ _ _ C).
  - right. apply session_commit_one in C as (r & i & Br & Bi & D).
    eexists. cbn [fst snd]. rewrite D. cbn [posts comments].
    split; [|now repeat split].
    split; cbn.
    + exact (bind_text_nonempty repo_name r Tr Br).
    + exact (bind_text_nonempty idea i Ti Bi).
Qed.

Lemma handle_store_ok U r sv :
  store_ok (store sv) -> store_ok (store (snd (handle U r sv))).
Proof.
  intros I. destruct r as [data | q now | fault | data now fault]; cbn [handle].
  - now destruct (analyze_repo_route U data (log sv)).
  - now destruct (trending_repos_route U q now (log sv)).
  - exact I.
  - destruct (add_post_store data now fault (store sv)) as [E | (p & Fp & _ & Ep & _)];
      destruct (add_post data now fault (store sv)) as [resp db]; cbn [snd store] in *.
    + now subst.
    + unfold store_ok. rewrite Ep. apply Forall_app. split; [exact I | now constructor].
Qed.

Lemma serve_store_ok U rs sv :
  store_ok (store sv) -> store_ok (store (serve U rs sv)).
Proof.
  revert sv. induction rs as [|r rs IH]; intros sv I; simpl; [exact I|].
  apply IH. now apply handle_store_ok.
Qed.

(** C9.  No post of the store has an empty repo_name or an empty idea:
    this holds of the empty store the service starts with, every request
    preserves it, hence it holds in every state the requests can reach.
    Only a request to create a post changes the store, and when it does it
    appends one post whose two fields are not empty. *)
Theorem store_invariant (U : upstream) :
  store_ok (store boot)
  /\ (forall r sv, store_ok (store sv) -> store_ok (store (snd (handle U r sv))))
  /\ (forall sv, reachable U sv -> store_ok (store sv))
  /\ (forall r sv,
        (forall data now fault, r <> AddPost data now fault) ->
        store (snd (handle U r sv)) = store sv)
  /\ (forall data now fault db,
        snd (add_post data now fault db) <> db ->
        exists p, filled p
                  /\ posts (snd (add_post data now fault db)) = (posts db ++ [p])%list).
Proof.
  split; [constructor|].
  split; [intros r sv; apply handle_store_ok|].
  split; [|split].
  - intros sv [rs ->]. apply serve_store_ok. constructor.
  - intros r sv N. destruct r as [data | q now | fault | data now fault]; cbn [handle].
    + now destruct (analyze_repo_route U data (log sv)).
    + now destruct (trending_repos_route U q now (log sv)).
    + reflexivity.
    + now contradiction (N data now fault).
  - intros data now fault db N.
    destruct (add_post_store data now fault db) as [E | (p & Fp & _ & Ep & _)];
      [contradiction|].
    now exists p.
Qed.

Lemma store_invariant_witness :
  let requests := [AddPost (JObj [("repo_name", JStr "octo/atlas"); ("idea", JNum 42)]) 7 None;
                   AddPost (JObj [("repo_name", JStr ""); ("idea", JStr "x")]) 8 None;
                   GetPosts None;
                   AddPost (JObj [("repo_name", JStr "a"); ("idea", JStr "b")]) 9
                     (Some (Raised "disk full"))] in
  posts (store (serve sample_upstream requests boot))
  = [{| Post.id := 1; Post.repo_name := "octo/atlas"; Post.idea := "42";
        Post.timestamp := 7 |}]
  /\ store_ok (store (serve sample_upstream requests boot)).
Proof.
  intros requests. split; [reflexivity|].
  apply (proj1 (proj2 (proj2 (store_invariant sample_upstream)))).
  now exists requests.
Defined.

(** ** Concrete runs *)

Example parse_plain :
  parse_github_url "https://github.com/octo/atlas" = (Some "octo", Some "atlas").
Proof. reflexivity. Qed.

Example parse_embedded :
  parse_github_url "see https://github.com/octo/atlas /tree/main"
  = (Some "octo", Some "atlas").
Proof. reflexivity. Qed.

Example parse_query_string :
  parse_github_url "https://github.com/octo/atlas?tab=readme"
  = (Some "octo", Some "atlas?tab=readme").
Proof. reflexivity. Qed.

Example parse_blank_repo :
  parse_github_url "https://github.com/octo/ /x" = (Some "octo", Some "").
Proof. reflexivity. Qed.

Example ord2ymd_first : ord2ymd 1 = (1, 1, 1).
Proof. reflexivity. Qed.

Example ord2ymd_leap_day : ord2ymd 738945 = (2024, 2, 29).
Proof. reflexivity. Qed.

Example ord2ymd_century : ord2ymd 730119 = (1999, 12, 31) /\ ord2ymd 730120 = (2000, 1, 1).
Proof. split; reflexivity. Qed.

Example ord2ymd_last : ord2ymd 3652059 = (9999, 12, 31).
Proof. reflexivity. Qed.

Example strftime_minutes :
  strftime_ymd_hm (sample_now + 3723000000) = "2026-11-03 01:02".
Proof. vm_compute. reflexivity. Qed.

(** A body without a usable [repo_url] never reaches an upstream. *)
Lemma analyze_without_url U data t0 :
  (forall url, dict_get data "repo_url" JNull <> inr (JStr url)) ->
  snd (analyze_repo_route U data t0) = t0
  /\ ((exists e, fst (analyze_repo_route U data t0) = Unhandled e)
      \/ fst (analyze_repo_route U data t0) = Jsonify (error_json "repo_url is required") 400).
Proof.
  intros N. unfold analyze_repo_route.
  destruct (dict_get data "repo_url" JNull) as [e|repo_url].
  { split; [reflexivity | left; eexists; reflexivity]. }
  destruct repo_url as [|b|n|s|l|l].
  - split; [reflexivity | now right].
  - destruct b; (split; [reflexivity | (now right) || (left; eexists; reflexivity)]).
  - cbn [truthy]. destruct (n =? 0);
      (split; [reflexivity | (now right) || (left; eexists; reflexivity)]).
  - now contradiction (N s).
  - destruct l; (split; [reflexivity | (now right) || (left; eexists; reflexivity)]).
  - destruct l; (split; [reflexivity | (now right) || (left; eexists; reflexivity)]).
Qed.

(* ------------------------------------------------------------------ *)
(** ** The README fetch *)

Lemma raise_for_status_error r :
  error_status r -> raise_for_status r = inl (HTTPError (status_code r) (http_error_text r)).
Proof.
  unfold error_status, raise_for_status. intros [L H].
  apply Z.leb_le in L. apply Z.ltb_lt in H. now rewrite L, H.
Qed.

Lemma raise_for_status_ok r : raise_for_status r = inr tt <-> ~ error_status r.
Proof.
  unfold error_status, raise_for_status.
  destruct (400 <=? status_code r) eqn:L; destruct (status_code r <? 600) eqn:H;
    cbn [andb]; split; try discriminate; try reflexivity; intros N;
    try (apply Z.leb_le in L); try (apply Z.ltb_lt in H);
    try (apply Z.leb_gt in L); try (apply Z.ltb_ge in H); lia.
Qed.

(** X1.  When GitHub answers the README request with a status from 400 to
    599, the fetch returns no content and the message
    "Could not fetch README. (HTTP Error: <status>)", after that one call. *)
Theorem readme_http_error U owner repo t resp :
  requests_get U t (readme_api_url owner repo) (auth_headers U) 15 = inr resp ->
  error_status resp ->
  get_github_readme U owner repo t
  = ((None, Some ("Could not fetch README. (HTTP Error: "
                  ++ str_of_Z (status_code resp) ++ ")")),
     (t ++ [HttpGet (readme_api_url owner repo) (auth_headers U) 15])%list).
Proof.
  intros G E. unfold get_github_readme, bind, http_get, ret.
  fold (readme_api_url owner repo). rewrite G. cbn [try_bind].
  now rewrite (raise_for_status_error resp E).
Qed.

Lemma readme_http_error_witness :
  let U := {| GITHUB_TOKEN := "ghp_sample";
              requests_get := fun _ _ _ _ =>
                inr {| status_code := 404; http_error_text := "Not Found";
                       json_body := inl (Raised "no body") |};
              generate_content := fun _ _ => inr "";
              markdown := fun s => s;
              b64decode_utf8 := fun s => inr s;
              str_exn := fun _ => "error";
              str_json := fun _ => "None" |} in
  fst (get_github_readme U (Some "octo") (Some "atlas") [])
  = (None, Some "Could not fetch README. (HTTP Error: 404)").
Proof.
  intros U.
  rewrite (readme_http_error U (Some "octo") (Some "atlas") [] _ eq_refl).
  - reflexivity.
  - unfold error_status. cbn. lia.
Defined.

(** X2.  The README fetch succeeds with a text exactly when GitHub answers
    with a status outside 400..599 and a JSON object whose "content" is a
    string that decodes (base64, then UTF-8) to that text.  A missing
    "content", a content that is not a string, a body that is not JSON, or
    a failed decoding all make it fail. *)
Theorem readme_success_iff U owner repo t content t' :
  ok (get_github_readme U owner repo) t content t'
  <-> (exists resp body encoded,
         requests_get U t (readme_api_url owner repo) (auth_headers U) 15 = inr resp
         /\ ~ error_status resp
         /\ json_body resp = inr body
         /\ subscript body "content" = inr (JStr encoded)
         /\ b64decode_utf8 U encoded = inr content)
      /\ t' = (t ++ [HttpGet (readme_api_url owner repo) (auth_headers U) 15])%list.
Proof.
  unfold ok, get_github_readme, bind, http_get, ret.
  fold (readme_api_url owner repo).
  split.
  - destruct (requests_get U t (readme_api_url owner repo) (auth_headers U) 15)
      as [e|resp] eqn:G; cbn [try_bind].
    { destruct e; discriminate. }
    destruct (raise_for_status resp) as [e|[]] eqn:R; cbn [try_bind].
    { destruct e; discriminate. }
    destruct (json_body resp) as [e|body] eqn:J; cbn [try_bind].
    { destruct e; discriminate. }
    destruct (subscript body "content") as [e|c] eqn:S; cbn [try_bind].
    { destruct e; discriminate. }
    destruct c as [|b|n|encoded|l|l]; cbn [decode_content]; try discriminate.
    destruct (b64decode_utf8 U encoded) as [e|text] eqn:D.
    { destruct e; discriminate. }
    intros [= <- <-]. split; [|reflexivity].
    exists resp, body, encoded. repeat split; try assumption.
    now apply raise_for_status_ok.
  - intros [(resp & body & encoded & G & E & J & S & D) ->].
    apply raise_for_status_ok in E.
    rewrite G. cbn [try_bind]. rewrite E. cbn [try_bind]. rewrite J. cbn [try_bind].
    rewrite S. cbn [try_bind decode_content]. now rewrite D.
Qed.

Lemma readme_success_iff_witness :
  exists t', ok (get_github_readme sample_upstream (Some "octo") (Some "atlas")) []
                "# Atlas" t'.
Proof.
  eexists.
  apply (proj2 (readme_success_iff sample_upstream (Some "octo") (Some "atlas") []
                  "# Atlas" _)).
  split; [|reflexivity].
  eexists. eexists. eexists. split; [reflexivity|].
  split; [unfold error_status; cbn; lia|].
  repeat split.
Defined.

(* ------------------------------------------------------------------ *)
(** ** The file-structure fetch *)

(** X3.  The file-structure fetch asks for the tree only after the
    repository request has given a default branch.  Either that first
    request fails (it raises, has an error status, has no JSON body or no
    "default_branch") and the fetch stops after this one call with a
    "Could not fetch file structure: ..." message, or exactly two calls are
    made and the second goes to the recursive tree of that branch. *)
Theorem file_structure_two_requests U owner repo t result t' :
  get_github_file_structure U owner repo t = (result, t') ->
  (t' = (t ++ [HttpGet (repo_api_url owner repo) (auth_headers U) 10])%list
   /\ exists e, result = (None, Some ("Could not fetch file structure: " ++ str_exn U e)))
  \/ (exists info body branch,
        requests_get U t (repo_api_url owner repo) (auth_headers U) 10 = inr info
        /\ ~ error_status info
        /\ json_body info = inr body
        /\ subscript body "default_branch" = inr branch
        /\ t' = (t ++ [HttpGet (repo_api_url owner repo) (auth_headers U) 10;
                       HttpGet (tree_api_url owner repo (fmt_json U branch))
                         (auth_headers U) 15])%list).
Proof.
  unfold get_github_file_structure, bind, http_get, ret.
  fold (repo_api_url owner repo).
  destruct (requests_get U t (repo_api_url owner repo) (auth_headers U) 10)
    as [e|info] eqn:G; cbn [try_bind].
  { intros [= <- <-]. left. split; [reflexivity | now exists e]. }
  destruct (raise_for_status info) as [e|[]] eqn:R; cbn [try_bind].
  { intros [= <- <-]. left. split; [reflexivity | now exists e]. }
  destruct (json_body info) as [e|body] eqn:J; cbn [try_bind].
  { intros [= <- <-]. left. split; [reflexivity | now exists e]. }
  destruct (subscript body "default_branch") as [e|branch] eqn:S.
  { intros [= <- <-]. left. split; [reflexivity | now exists e]. }
  fold (tree_api_url owner repo (fmt_json U branch)).
  intros [= _ <-]. right. exists info, body, branch.
  repeat split; try assumption.
  - now apply raise_for_status_ok.
  - now rewrite <- app_assoc.
Qed.

Lemma file_structure_two_requests_witness :
  exists branch,
    snd (get_github_file_structure sample_upstream (Some "octo") (Some "atlas")
           [HttpGet "" [] 0; Generate ""])
    = [HttpGet "" [] 0; Generate "";
       HttpGet (repo_api_url (Some "octo") (Some "atlas")) (auth_headers sample_upstream) 10;
       HttpGet (tree_api_url (Some "octo") (Some "atlas") branch)
         (auth_headers sample_upstream) 15].
Proof.
  destruct (file_structure_two_requests sample_upstream (Some "octo") (Some "atlas")
              [HttpGet "" [] 0; Generate ""] _ _ eq_refl)
    as [[E _] | (info & body & branch & _ & _ & _ & _ & E)].
  - exfalso. apply (f_equal (@List.length call)) in E. vm_compute in E. discriminate.
  - exists (fmt_json sample_upstream branch). exact E.
Defined.

(** X4.  The listing reads the whole tree before it cuts to 200 paths: it
    can be built exactly when every entry has a "type" and every entry of
    type "blob" has a "path".  One entry without a type, or one blob without
    a path, anywhere in the tree, fails the fetch; entries that are not
    blobs need no path. *)
Theorem blob_paths_readable items :
  (exists files, blob_paths items = inr files) <-> Forall readable_entry items.
Proof.
  induction items as [|item items IH].
  - split; [constructor | now exists []].
  - cbn [blob_paths]. split.
    + intros [files H].
      destruct (subscript item "type") as [e|ty] eqn:T; cbn [try_bind] in H; [discriminate|].
      destruct (eq_str ty "blob") eqn:B.
      * destruct (subscript item "path") as [e|p] eqn:P; cbn [try_bind] in H;
          [discriminate|].
        destruct (blob_paths items) as [e|paths]; cbn [try_bind] in H; [discriminate|].
        constructor; [|apply IH; now exists paths].
        exists ty. split; [exact T | now exists p].
      * constructor; [|apply IH; now exists files].
        exists ty. split; [exact T | now rewrite B].
    + intros F. inversion F as [|? ? (ty & T & P) F']; subst.
      apply IH in F' as [paths Hp]. rewrite T. cbn [try_bind].
      destruct (eq_str ty "blob"); [|now exists paths].
      destruct (P eq_refl) as [p ->]. cbn [try_bind]. rewrite Hp. cbn [try_bind].
      now exists (p :: paths).
Qed.

Lemma blob_paths_readable_witness :
  exists files,
    blob_paths [JObj [("path", JStr "a.py"); ("type", JStr "blob")];
                JObj [("type", JStr "tree")]] = inr files.
Proof.
  apply (proj2 (blob_paths_readable _)).
  repeat constructor.
  - exists (JStr "blob"). split; [reflexivity|]. intros _. now exists (JStr "a.py").
  - exists (JStr "tree"). split; [reflexivity | discriminate].
Defined.

(* ------------------------------------------------------------------ *)
(** ** What the parser hands on *)

Lemma no_slash_app_inv a b :
  no_slash (a ++ b) = true -> no_slash a = true /\ no_slash b = true.
Proof.
  induction a as [|c a IH]; simpl; [now split|].
  intros H. apply andb_prop in H as [Hc H]. destruct (IH H) as [Ha Hb].
  now rewrite Hc, Ha.
Qed.

Lemma strip_no_slash s : no_slash s = true -> no_slash (strip s) = true.
Proof.
  intros N. destruct (strip_frame s) as (a & b & E & _).
  rewrite E in N. apply no_slash_app_inv in N as [_ N].
  now apply no_slash_app_inv in N as [N _].
Qed.

Lemma lstrip_all_space s : all_space s = true -> lstrip s = "".
Proof.
  induction s as [|c s IH]; simpl; [reflexivity|].
  intros H. apply andb_prop in H as [Hc H]. rewrite Hc. now apply IH.
Qed.

Lemma strip_all_space s : all_space s = true -> strip s = "".
Proof. intros H. unfold strip. now rewrite (lstrip_all_space s H). Qed.

(** X5.  The parser answers with both names or with neither.  When it
    answers, the owner is not empty and has no slash, and the repository
    name has no slash and neither begins nor ends with whitespace. *)
Theorem parse_github_url_shape (url : string) :
  parse_github_url url = (None, None)
  \/ exists o r,
      parse_github_url url = (Some o, Some r)
      /\ segment o
      /\ no_slash r = true
      /\ (forall c, first_char r = Some c -> is_space c = false)
      /\ (forall c, last_char r = Some c -> is_space c = false).
Proof.
  unfold parse_github_url.
  destruct (Re.search pattern url) as [m|] eqn:E; [right | now left].
  apply search_found in E as (pre & t & -> & Ht).
  rewrite match_here_direct in Ht.
  destruct (match_direct t) as [[o r]|] eqn:D; [|discriminate].
  injection Ht as <-.
  apply match_direct_elim in D as (rest & -> & Ho & [_ Nr] & _).
  exists o, (strip r). cbn [Re.group Nat.eqb option_map].
  destruct (strip_frame r) as (a & b & _ & _ & _ & F & L).
  repeat split; try apply Ho; try assumption.
  now apply strip_no_slash.
Qed.

(** X6.  A URL whose repository segment is only whitespace parses to an
    empty name, and the request to analyze it is answered
    400 "Invalid GitHub URL" before any upstream call. *)
Theorem analyze_blank_repo U data t0 o r rest :
  dict_get data "repo_url" JNull
  = inr (JStr (github_prefix ++ o ++ "/" ++ r ++ rest)) ->
  segment o -> segment r -> all_space r = true -> trailing rest ->
  parse_github_url (github_prefix ++ o ++ "/" ++ r ++ rest) = (Some o, Some "")
  /\ analyze_repo_route U data t0 = (Jsonify (error_json "Invalid GitHub URL") 400, t0).
Proof.
  intros body Ho Hr Sp Hrest.
  assert (P : parse_github_url (github_prefix ++ o ++ "/" ++ r ++ rest) = (Some o, Some "")).
  { pose proof (parse_github_url_first "" o r rest Ho Hr Hrest
                  (occurs_first_start _)) as H.
    now rewrite (strip_all_space r Sp) in H. }
  split; [exact P|].
  apply (analyze_stops_at_failure U data _ t0 body UrlParse).
  eapply fail_parse; [discriminate | exact P|].
  apply orb_true_r.
Qed.

Lemma analyze_blank_repo_witness :
  analyze_repo_route sample_upstream
    (JObj [("repo_url", JStr (github_prefix ++ "octo" ++ "/" ++ "  " ++ "/tree"))]) []
  = (Jsonify (error_json "Invalid GitHub URL") 400, []).
Proof.
  apply (analyze_blank_repo sample_upstream _ [] "octo" "  " "/tree").
  - reflexivity.
  - split; [discriminate | reflexivity].
  - split; [discriminate | reflexivity].
  - reflexivity.
  - right. now exists "tree".
Defined.

(* ------------------------------------------------------------------ *)
(** ** Requests that stop early *)

(** X7.  A body that is not a JSON object, or whose "repo_url" is neither
    a string nor missing, is not answered with a 400: the handler raises
    (AttributeError, TypeError).  A body whose "repo_url" is missing, null,
    empty or otherwise false is answered 400 "repo_url is required".  None
    of them reaches an upstream. *)
Theorem analyze_needs_string_url U data t0 :
  (forall url, dict_get data "repo_url" JNull <> inr (JStr url)) ->
  snd (analyze_repo_route U data t0) = t0
  /\ ((forall fields, data <> JObj fields) ->
      exists e, fst (analyze_repo_route U data t0) = Unhandled (AttributeError e))
  /\ (forall fields,
        data = JObj fields -> truthy (field "repo_url" fields) = false ->
        fst (analyze_repo_route U data t0) = Jsonify (error_json "repo_url is required") 400)
  /\ (forall fields,
        data = JObj fields -> truthy (field "repo_url" fields) = true ->
        exists e, fst (analyze_repo_route U data t0) = Unhandled (TypeError e)).
Proof.
  intros N. split; [exact (proj1 (analyze_without_url U data t0 N))|].
  split; [|split].
  - intros NotObj. unfold analyze_repo_route.
    destruct data; try (eexists; reflexivity). now contradiction (NotObj fields).
  - intros fields -> F. unfold analyze_repo_route, dict_get, field in *.
    destruct (assoc "repo_url" fields) as [v|]; [|reflexivity].
    now rewrite F.
  - intros fields -> T. unfold analyze_repo_route, dict_get, field in *.
    destruct (assoc "repo_url" fields) as [v|]; [|discriminate].
    rewrite T. cbn [negb].
    destruct v as [|b|n|s|l|l]; try (eexists; reflexivity).
    now contradiction (N s).
Qed.

Lemma analyze_needs_string_url_witness :
  analyze_repo_route sample_upstream (JObj [("url", JStr "https://github.com/o/r")]) []
  = (Jsonify (error_json "repo_url is required") 400, []).
Proof.
  assert (N : forall url,
             dict_get (JObj [("url", JStr "https://github.com/o/r")]) "repo_url" JNull
             <> inr (JStr url)) by (intros url; discriminate).
  destruct (analyze_needs_string_url sample_upstream _ [] N) as (L & _ & R & _).
  rewrite (surjective_pairing (analyze_repo_route _ _ _)), L.
  now rewrite (R _ eq_refl eq_refl).
Defined.

(** X15.  When GitHub serves an empty README, the request to analyze ends
    with 500 "README content is empty." right after the README request:
    the model is never called and the file structure is never fetched. *)
Theorem analyze_empty_readme U data url t0 o r t1 :
  dict_get data "repo_url" JNull = inr (JStr url) ->
  parsed url o r ->
  ok (get_github_readme U o r) t0 "" t1 ->
  analyze_repo_route U data t0
  = (Jsonify (error_json "README content is empty.") 500,
     (t0 ++ [HttpGet (readme_api_url o r) (auth_headers U) 15])%list).
Proof.
  intros body P O1.
  assert (E : t1 = (t0 ++ [HttpGet (readme_api_url o r) (auth_headers U) 15])%list).
  { unfold ok, get_github_readme, bind, http_get, ret in O1. now injection O1 as _ <-. }
  rewrite <- E.
  apply (analyze_stops_at_failure U data url t0 body ReadmeSummary).
  eapply fail_summary; [exact P | exact O1|].
  now exists None.
Qed.

Lemma analyze_empty_readme_witness :
  let U := {| GITHUB_TOKEN := "ghp_sample";
              requests_get := sample_get;
              generate_content := fun _ _ => inr "Atlas";
              markdown := fun s => s;
              b64decode_utf8 := fun _ => inr "";
              str_exn := fun _ => "error";
              str_json := fun _ => "None" |} in
  fst (analyze_repo_route U sample_body [])
  = Jsonify (error_json "README content is empty.") 500.
Proof.
  intros U.
  rewrite (analyze_empty_readme U sample_body "https://github.com/octo/atlas" []
             (Some "octo") (Some "atlas")
             [HttpGet (readme_api_url (Some "octo") (Some "atlas")) (auth_headers U) 15]).
  - reflexivity.
  - reflexivity.
  - repeat split; discriminate.
  - reflexivity.
Defined.

Lemma file_listing_no_blob items : filter is_blob items = [] -> file_listing items = "".
Proof. unfold file_listing. now intros ->. Qed.

(** X16.  For a repository whose tree has no file (no entry of type
    "blob"), the file-structure fetch succeeds with the empty text, and the
    request to analyze then ends with 500 "File structure is empty."
    without calling the model for the analysis or the setup guide. *)
Theorem analyze_empty_tree U data url t0 o r readme t1 summary t2 files t3 :
  dict_get data "repo_url" JNull = inr (JStr url) ->
  parsed url o r ->
  ok (get_github_readme U o r) t0 readme t1 ->
  ok (summarize_readme_with_gemini U (Some readme)) t1 summary t2 ->
  ok (get_github_file_structure U o r) t2 files t3 ->
  (exists items, files = file_listing items /\ filter is_blob items = []) ->
  analyze_repo_route U data t0
  = (Jsonify (error_json "File structure is empty.") 500, t3)
  /\ extends t0 t3 4 4.
Proof.
  intros body P O1 O2 O3 (items & -> & B).
  rewrite (file_listing_no_blob items B) in O3. split.
  - apply (analyze_stops_at_failure U data url t0 body StructureAnalysis).
    eapply fail_analysis; [exact P | exact O1 | exact O2 | exact O3|].
    now exists None.
  - pose proof (get_github_readme_log U o r t0) as L1.
    rewrite (ok_log _ _ _ _ O1) in L1.
    destruct (summarize_readme_ok _ _ _ _ _ O2) as [_ L2].
    pose proof (get_github_file_structure_ok _ _ _ _ _ _ O3) as L3.
    exact (extends_trans _ _ _ _ _ _ _ (extends_trans _ _ _ _ _ _ _ L1 L2) L3).
Qed.

Lemma analyze_empty_tree_witness :
  fst (analyze_repo_route bare_upstream sample_body [])
  = Jsonify (error_json "File structure is empty.") 500.
Proof.
  edestruct (analyze_empty_tree bare_upstream sample_body "https://github.com/octo/atlas" []
               (Some "octo") (Some "atlas") "# Atlas") as [E _].
  - reflexivity.
  - repeat split; discriminate.
  - cbv; reflexivity.
  - cbv; reflexivity.
  - cbv; reflexivity.
  - exists [JObj [("path", JStr "src"); ("type", JStr "tree")]]. split; reflexivity.
  - now rewrite E.
Defined.

(* ------------------------------------------------------------------ *)
(** ** The trending search: failures *)

Lemma trending_entry_complete r :
  (exists e, trending_entry r = inr e) <-> complete_hit r.
Proof.
  unfold trending_entry, complete_hit, hit_keys. split.
  - intros [e H] k Hk.
    destruct (subscript r "full_name") as [x|v1] eqn:E1; cbn [try_bind] in H; [discriminate|].
    destruct (subscript r "html_url") as [x|v2] eqn:E2; cbn [try_bind] in H; [discriminate|].
    destruct (subscript r "stargazers_count") as [x|v3] eqn:E3; cbn [try_bind] in H;
      [discriminate|].
    destruct (subscript r "description") as [x|v4] eqn:E4; cbn [try_bind] in H;
      [discriminate|].
    destruct (subscript r "forks_count") as [x|v5] eqn:E5; cbn [try_bind] in H;
      [discriminate|].
    simpl in Hk. destruct Hk as [<- | [<- | [<- | [<- | [<- | []]]]]]; eauto.
  - intros C.
    destruct (C "full_name") as [v1 ->]; [simpl; tauto|].
    destruct (C "html_url") as [v2 ->]; [simpl; tauto|].
    destruct (C "stargazers_count") as [v3 ->]; [simpl; tauto|].
    destruct (C "description") as [v4 ->]; [simpl; tauto|].
    destruct (C "forks_count") as [v5 ->]; [simpl; tauto|].
    eexists. reflexivity.
Qed.

Lemma trending_entries_complete hits :
  (exists l, trending_entries hits = inr l) <-> Forall complete_hit hits.
Proof.
  induction hits as [|r hits IH]; cbn [trending_entries].
  - split; [constructor | now exists []].
  - split.
    + intros [l H].
      destruct (trending_entry r) as [x|e] eqn:E; cbn [try_bind] in H; [discriminate|].
      destruct (trending_entries hits) as [x|es]; cbn [try_bind] in H; [discriminate|].
      constructor; [apply trending_entry_complete; now exists e | apply IH; now exists es].
    + intros F. inversion F as [|? ? C F']; subst.
      apply trending_entry_complete in C as [e ->]. apply IH in F' as [es ->].
      now exists (e :: es).
Qed.



(** X9.  A search answer that is a JSON object without "items" is read
    as no hits: the route answers 200 with the empty list. *)
Theorem trending_without_items U search_query now t info fields :
  0 <= now - timedelta_days 730 ->
  requests_get U t (trending_url search_query now) (auth_headers U) 15 = inr info ->
  ~ error_status info ->
  json_body info = inr (JObj fields) ->
  assoc "items" fields = None ->
  fst (trending_repos_route U search_query now t) = Jsonify (JArr []) 200.
Proof.
  intros Hnow G E J A. unfold trending_repos_route.
  destruct (now - timedelta_days 730 <? 0) eqn:L; [apply Z.ltb_lt in L; lia|].
  unfold bind, http_get, ret. cbn [fst]. rewrite G. cbn [try_bind].
  apply raise_for_status_ok in E. rewrite E. cbn [try_bind]. rewrite J. cbn [try_bind].
  unfold dict_get. now rewrite A.
Qed.

Lemma trending_without_items_witness :
  fst (trending_repos_route no_items_upstream None sample_now []) = Jsonify (JArr []) 200.
Proof.
  apply (trending_without_items no_items_upstream None sample_now []
           {| status_code := 200; http_error_text := "";
              json_body := inr (JObj [("total_count", JNum 0)]) |}
           [("total_count", JNum 0)]).
  - vm_compute. discriminate.
  - reflexivity.
  - unfold error_status. cbn. lia.
  - reflexivity.
  - reflexivity.
Defined.

(** X10.  The trending route answers with a list exactly when GitHub
    answered without an error status, with a JSON object whose "items"
    (the empty list when absent) can be iterated, and every hit has all of
    full_name, html_url, stargazers_count, description and forks_count.  A
    single hit that lacks one of them turns the whole answer into the 500:
    no partial list is returned. *)
Theorem trending_list_iff U search_query now t :
  0 <= now - timedelta_days 730 ->
  (exists result,
     fst (trending_repos_route U search_query now t) = Jsonify (JArr result) 200)
  <-> (exists info body items hits,
         requests_get U t (trending_url search_query now) (auth_headers U) 15 = inr info
         /\ ~ error_status info
         /\ json_body info = inr body
         /\ dict_get body "items" (JArr []) = inr items
         /\ py_iter items = inr hits
         /\ Forall complete_hit hits).
Proof.
  intros Hnow. unfold trending_repos_route.
  destruct (now - timedelta_days 730 <? 0) eqn:L; [apply Z.ltb_lt in L; lia|].
  unfold bind, http_get, ret. cbn [fst]. split.
  - intros [result H].
    destruct (requests_get U t (trending_url search_query now) (auth_headers U) 15)
      as [e|info] eqn:G; cbn [try_bind] in H; [discriminate|].
    destruct (raise_for_status info) as [e|[]] eqn:R; cbn [try_bind] in H; [discriminate|].
    destruct (json_body info) as [e|body] eqn:J; cbn [try_bind] in H; [discriminate|].
    destruct (dict_get body "items" (JArr [])) as [e|items] eqn:D; cbn [try_bind] in H;
      [discriminate|].
    destruct (py_iter items) as [e|hits] eqn:I; cbn [try_bind] in H; [discriminate|].
    destruct (trending_entries hits) as [e|entries] eqn:T; [discriminate|].
    exists info, body, items, hits. repeat split; try assumption.
    + now apply raise_for_status_ok.
    + apply trending_entries_complete. now exists entries.
  - intros (info & body & items & hits & G & E & J & D & I & C).
    apply raise_for_status_ok in E. apply trending_entries_complete in C as [entries T].
    rewrite G. cbn [try_bind]. rewrite E. cbn [try_bind]. rewrite J. cbn [try_bind].
    rewrite D. cbn [try_bind]. rewrite I. cbn [try_bind]. rewrite T.
    now exists entries.
Qed.

Lemma trending_list_iff_witness :
  exists hits,
    requests_get thirteen_hits [] (trending_url None sample_now)
      (auth_headers thirteen_hits) 15
    = inr {| status_code := 200; http_error_text := "";
             json_body := inr (JObj [("items", JArr hits)]) |}
    /\ Forall complete_hit hits.
Proof.
  assert (Hnow : 0 <= sample_now - timedelta_days 730) by (vm_compute; discriminate).
  assert (R : exists result,
             fst (trending_repos_route thirteen_hits None sample_now [])
             = Jsonify (JArr result) 200) by (eexists; vm_compute; reflexivity).
  apply (proj1 (trending_list_iff thirteen_hits None sample_now [] Hnow)) in R
    as (info & body & items & hits & G & _ & J & D & I & C).
  cbn in G. injection G as <-. cbn in J. injection J as <-.
  cbn in D. injection D as <-. cbn in I. injection I as <-.
  eexists. split; [reflexivity | exact C].
Defined.

(* ------------------------------------------------------------------ *)
(** ** The idea board over time *)

(** What a request to create a post does to the store, in full. *)
Lemma add_post_row data now fault db :
  (fst (add_post data now fault db) <> created_201
   /\ snd (add_post data now fault db) = db)
  \/ exists r i,
      r <> "" /\ i <> ""
      /\ fst (add_post data now fault db) = created_201
      /\ snd (add_post data now fault db)
         = {| posts := (posts db
                        ++ [{| Post.id := next_id (posts db); Post.repo_name := r;
                               Post.idea := i; Post.timestamp := now |}])%list;
              comments := comments db |}.
Proof.
  unfold add_post.
  destruct (dict_get data "repo_name" JNull) as [e|repo_name];
    [left; split; [discriminate | reflexivity]|].
  destruct (dict_get data "idea" JNull) as [e|idea];
    [left; split; [discriminate | reflexivity]|].
  destruct (truthy repo_name && truthy idea) eqn:T;
    [|left; split; [discriminate | reflexivity]].
  apply andb_prop in T as [Tr Ti].
  destruct (session_commit now fault _) as [[e|[]] s'] eqn:C.
  - left. split; [discriminate|]. cbn. now rewrite (session_commit_failure _ _ _ _ _ C).
  - right. apply session_commit_one in C as (r & i & Br & Bi & D).
    exists r, i. cbn [fst snd]. rewrite D.
    repeat split;
      [exact (bind_text_nonempty repo_name r Tr Br) | exact (bind_text_nonempty idea i Ti Bi)].
Qed.

Lemma handle_store U r sv :
  store (snd (handle U r sv)) = store sv
  \/ exists data now fault,
      store (snd (handle U r sv)) = snd (add_post data now fault (store sv)).
Proof.
  destruct r as [data | q now | fault | data now fault]; cbn [handle].
  - left. now destruct (analyze_repo_route U data (log sv)).
  - left. now destruct (trending_repos_route U q now (log sv)).
  - now left.
  - right. exists data, now, fault.
    now destruct (add_post data now fault (store sv)).
Qed.

(** A property of the store that creating a post preserves holds along
    every run of the service. *)
Lemma serve_store_invariant (I : database -> Prop) U :
  (forall data now fault db, I db -> I (snd (add_post data now fault db))) ->
  forall rs sv, I (store sv) -> I (store (serve U rs sv)).
Proof.
  intros Step rs. induction rs as [|r rs IH]; intros sv H; cbn [serve]; [exact H|].
  apply IH. destruct (handle_store U r sv) as [-> | (data & now & fault & ->)];
    [exact H | now apply Step].
Qed.

Lemma next_id_above rows : Forall (fun i => i < next_id rows) (map Post.id rows).
Proof.
  unfold next_id. induction rows as [|p rows IH]; cbn [map fold_right]; constructor.
  - lia.
  - eapply Forall_impl; [|exact IH]. intros i Hi. cbn beta in *. lia.
Qed.

(** X11.  Post identifiers are keys: in every state the service can reach
    from the empty store, the ids of the posts are positive and pairwise
    distinct. *)
Theorem post_ids_are_keys U sv :
  reachable U sv ->
  NoDup (post_ids (store sv)) /\ Forall (fun i => 0 < i) (post_ids (store sv)).
Proof.
  intros [rs ->].
  apply (serve_store_invariant
           (fun db => NoDup (post_ids db) /\ Forall (fun i => 0 < i) (post_ids db)));
    [|split; constructor].
  intros data now fault db [N P].
  destruct (add_post_row data now fault db) as [[_ ->] | (r & i & _ & _ & _ & ->)];
    [now split|].
  unfold post_ids in *. cbn [posts]. rewrite map_app. cbn [map Post.id].
  pose proof (next_id_above (posts db)) as A. split.
  - apply NoDup_app; [exact N | repeat constructor; intros [] | ].
    intros x Hx [<- | []]. rewrite Forall_forall in A. specialize (A _ Hx). lia.
  - apply Forall_app. split; [exact P|]. constructor; [|constructor].
    unfold next_id.
    assert (0 <= fold_right Z.max 0 (map Post.id (posts db))).
    { clear. induction (posts db) as [|q l IH]; cbn [map fold_right]; lia. }
    lia.
Qed.

Lemma post_ids_are_keys_witness :
  let requests := [AddPost (JObj [("repo_name", JStr "a"); ("idea", JStr "b")]) 7 None;
                   AddPost (JObj [("repo_name", JStr "c"); ("idea", JStr "d")]) 7 None] in
  post_ids (store (serve sample_upstream requests boot)) = [1; 2]
  /\ NoDup (post_ids (store (serve sample_upstream requests boot))).
Proof.
  intros requests. split; [reflexivity|].
  apply (post_ids_are_keys sample_upstream). now exists requests.
Defined.

(** X12.  No request creates a comment: in every state the service can
    reach from the empty store the comment table is empty, so every post is
    listed with comments_count 0. *)
Theorem no_comment_is_ever_stored U sv :
  reachable U sv ->
  comments (store sv) = []
  /\ forall entries,
      get_posts None (store sv) = Jsonify (JArr entries) 200 ->
      Forall (fun e => subscript e "comments_count" = inr (JNum 0)) entries.
Proof.
  intros [rs ->].
  assert (C : comments (store (serve U rs boot)) = []).
  { apply (serve_store_invariant (fun db => comments db = [])); [|reflexivity].
    intros data now fault db H.
    destruct (add_post_row data now fault db) as [[_ ->] | (r & i & _ & _ & _ & ->)];
      exact H. }
  split; [exact C|].
  intros entries H. unfold get_posts in H. injection H as <-.
  apply Forall_map, Forall_forall. intros p _.
  unfold post_summary, post_comments. now rewrite C.
Qed.

Lemma no_comment_is_ever_stored_witness :
  comments (store (serve sample_upstream
                     [AddPost (JObj [("repo_name", JStr "a"); ("idea", JStr "b")]) 7 None;
                      GetPosts None] boot)) = [].
Proof.
  apply (no_comment_is_ever_stored sample_upstream). now eexists.
Defined.

(** X13.  The store is append-only: whatever requests are served, the
    posts that were there stay first, unchanged and in the same order, and
    a request to create a post answers 201 exactly when it has added one
    row, with the next free id and the time of the request. *)
Theorem store_is_append_only U :
  (forall rs sv, exists new,
      posts (store (serve U rs sv)) = (posts (store sv) ++ new)%list)
  /\ (forall data now fault db,
        fst (add_post data now fault db) = created_201
        <-> List.length (posts (snd (add_post data now fault db)))
            = S (List.length (posts db)))
  /\ (forall data now fault db,
        fst (add_post data now fault db) = created_201 ->
        exists p,
          posts (snd (add_post data now fault db)) = (posts db ++ [p])%list
          /\ Post.id p = next_id (posts db) /\ Post.timestamp p = now).
Proof.
  split; [|split].
  - intros rs. induction rs as [|r rs IH]; intros sv; cbn [serve].
    + exists []. now rewrite app_nil_r.
    + destruct (IH (snd (handle U r sv))) as [new ->].
      destruct (handle_store U r sv) as [-> | (data & now & fault & ->)];
        [now exists new|].
      destruct (add_post_row data now fault (store sv))
        as [[_ ->] | (x & i & _ & _ & _ & ->)]; [now exists new|].
      cbn [posts]. rewrite <- app_assoc. eexists. reflexivity.
  - intros data now fault db.
    destruct (add_post_row data now fault db) as [[N ->] | (r & i & _ & _ & -> & ->)].
    + split; [contradiction | lia].
    + split; [|reflexivity]. intros _. cbn [posts]. rewrite length_app. cbn. lia.
  - intros data now fault db H.
    destruct (add_post_row data now fault db) as [[N _] | (r & i & _ & _ & _ & ->)];
      [contradiction|].
    eexists. cbn [posts]. repeat split.
Qed.

Lemma store_is_append_only_witness :
  exists p,
    posts (snd (add_post (JObj [("repo_name", JStr "a"); ("idea", JStr "b")]) 7 None empty_db))
    = [p] /\ Post.id p = 1 /\ Post.timestamp p = 7.
Proof.
  destruct (proj2 (proj2 (store_is_append_only sample_upstream))
              (JObj [("repo_name", JStr "a"); ("idea", JStr "b")]) 7 None empty_db eq_refl)
    as (p & E & I & T).
  now exists p.
Defined.

Lemma order_by_newest p l :
  Forall (fun q => Post.timestamp q < Post.timestamp p) l ->
  order_by_timestamp_desc (l ++ [p]) = p :: order_by_timestamp_desc l.
Proof.
  unfold order_by_timestamp_desc. induction 1 as [|q l Hq F IH]; [reflexivity|].
  cbn [app fold_right]. rewrite IH. cbn [insert_desc].
  destruct (Post.timestamp p <=? Post.timestamp q) eqn:E; [|reflexivity].
  apply Z.leb_le in E. lia.
Qed.

(** X14.  A post created later than every stored post heads the next
    listing, and the posts listed before follow it in the order they had. *)
Theorem newest_post_is_listed_first data now fault db :
  fst (add_post data now fault db) = created_201 ->
  Forall (fun q => Post.timestamp q < now) (posts db) ->
  exists p,
    Post.timestamp p = now
    /\ Post.id p = next_id (posts db)
    /\ get_posts None (snd (add_post data now fault db))
       = Jsonify (JArr (map (post_summary (snd (add_post data now fault db)))
                          (p :: order_by_timestamp_desc (posts db)))) 200.
Proof.
  intros H Old.
  destruct (add_post_row data now fault db) as [[N _] | (r & i & _ & _ & _ & ->)];
    [contradiction|].
  eexists. split; [|split]; [| |unfold get_posts; cbn [posts];
                                rewrite order_by_newest; [reflexivity | exact Old]];
    reflexivity.
Qed.

Lemma newest_post_is_listed_first_witness :
  let db := {| posts := [{| Post.id := 1; Post.repo_name := "octo/atlas";
                            Post.idea := "add a map"; Post.timestamp := 5 |}];
               comments := [] |} in
  exists p,
    Post.timestamp p = 9
    /\ Post.id p = 2
    /\ get_posts None (snd (add_post (JObj [("repo_name", JStr "r"); ("idea", JStr "i")])
                              9 None db))
       = Jsonify (JArr (map (post_summary
                               (snd (add_post (JObj [("repo_name", JStr "r");
                                                     ("idea", JStr "i")]) 9 None db)))
                          (p :: order_by_timestamp_desc (posts db)))) 200.
Proof.
  intros db.
  apply (newest_post_is_listed_first
           (JObj [("repo_name", JStr "r"); ("idea", JStr "i")]) 9 None db eq_refl).
  repeat constructor.
Defined.

(* ------------------------------------------------------------------ *)
(** ** The calls of a successful analysis *)

Lemma get_github_readme_call U o r t :
  snd (get_github_readme U o r t)
  = (t ++ [HttpGet (readme_api_url o r) (auth_headers U) 15])%list.
Proof. reflexivity. Qed.

Lemma summarize_readme_call U v t s t' :
  ok (summarize_readme_with_gemini U v) t s t' ->
  exists text,
    generate_content U t (summary_prompt v) = inr text
    /\ s = markdown U text
    /\ t' = (t ++ [Generate (summary_prompt v)])%list.
Proof.
  unfold ok, summarize_readme_with_gemini. destruct (falsy v); [discriminate|].
  unfold bind, model_text, ret. fold (summary_prompt v).
  destruct (generate_content U t (summary_prompt v)) as [e|text]; [discriminate|].
  intros [= <- <-]. now exists text.
Qed.

Lemma analyze_structure_call U v t s t' :
  ok (analyze_structure_with_gemini U v) t s t' ->
  exists text,
    generate_content U t (analysis_prompt v) = inr text
    /\ s = markdown U text
    /\ t' = (t ++ [Generate (analysis_prompt v)])%list.
Proof.
  unfold ok, analyze_structure_with_gemini. destruct (falsy v); [discriminate|].
  unfold bind, model_text, ret. fold (analysis_prompt v).
  destruct (generate_content U t (analysis_prompt v)) as [e|text]; [discriminate|].
  intros [= <- <-]. now exists text.
Qed.

Lemma get_setup_guide_call U v w t s t' :
  ok (get_setup_guide_with_gemini U v w) t s t' ->
  exists text,
    generate_content U t (setup_guide_prompt v w) = inr text
    /\ s = markdown U text
    /\ t' = (t ++ [Generate (setup_guide_prompt v w)])%list.
Proof.
  unfold ok, get_setup_guide_with_gemini, bind, model_text, ret.
  fold (setup_guide_prompt v w).
  destruct (generate_content U t (setup_guide_prompt v w)) as [e|text]; [discriminate|].
  intros [= <- <-]. now exists text.
Qed.

Lemma get_github_file_structure_calls U o r t s t' :
  ok (get_github_file_structure U o r) t s t' ->
  exists info body b,
    requests_get U t (repo_api_url o r) (auth_headers U) 10 = inr info
    /\ json_body info = inr body
    /\ subscript body "default_branch" = inr b
    /\ t' = (t ++ [HttpGet (repo_api_url o r) (auth_headers U) 10;
                   HttpGet (tree_api_url o r (fmt_json U b)) (auth_headers U) 15])%list.
Proof.
  unfold ok, get_github_file_structure, bind, http_get, ret.
  fold (repo_api_url o r).
  destruct (requests_get U t (repo_api_url o r) (auth_headers U) 10)
    as [e|info] eqn:G; cbn [try_bind]; [discriminate|].
  destruct (raise_for_status info) as [e|[]]; cbn [try_bind]; [discriminate|].
  destruct (json_body info) as [e|body] eqn:J; cbn [try_bind]; [discriminate|].
  destruct (subscript body "default_branch") as [e|b] eqn:S; [discriminate|].
  fold (tree_api_url o r (fmt_json U b)).
  intros [= _ <-]. exists info, body, b. repeat split; try assumption.
  now rewrite <- app_assoc.
Qed.

(** X21.  A successful analysis has made exactly these six calls, in this
    order: the README request, the model call for the summary, the
    repository request, the request for the recursive tree of the default
    branch that request answered, the model call for the analysis and the
    model call for the setup guide.  The README in the prompts is the text
    the README request fetched and the file listing is the text the two
    repository requests fetched, each fetch being run on the log as it stood
    at that moment; and each document is the rendering of what the model
    answered to its prompt at its place in the log. *)
Theorem successful_analysis_calls U url t0 summary analysis guide t :
  succeeds U url t0 summary analysis guide t ->
  exists o r readme files info body branch x1 x2 x3,
    let c1 := HttpGet (readme_api_url o r) (auth_headers U) 15 in
    let c2 := Generate (summary_prompt (Some readme)) in
    let c3 := HttpGet (repo_api_url o r) (auth_headers U) 10 in
    let c4 := HttpGet (tree_api_url o r (fmt_json U branch)) (auth_headers U) 15 in
    let c5 := Generate (analysis_prompt (Some files)) in
    let c6 := Generate (setup_guide_prompt (Some readme) (Some files)) in
    parsed url o r
    /\ readme <> "" /\ files <> ""
    /\ ok (get_github_readme U o r) t0 readme (t0 ++ [c1])%list
    /\ generate_content U (t0 ++ [c1])%list (summary_prompt (Some readme)) = inr x1
    /\ summary = markdown U x1
    /\ ok (get_github_file_structure U o r) (t0 ++ [c1; c2])%list files
         (t0 ++ [c1; c2; c3; c4])%list
    /\ requests_get U (t0 ++ [c1; c2])%list (repo_api_url o r) (auth_headers U) 10
       = inr info
    /\ json_body info = inr body
    /\ subscript body "default_branch" = inr branch
    /\ generate_content U (t0 ++ [c1; c2; c3; c4])%list (analysis_prompt (Some files))
       = inr x2
    /\ analysis = markdown U x2
    /\ generate_content U (t0 ++ [c1; c2; c3; c4; c5])%list
         (setup_guide_prompt (Some readme) (Some files)) = inr x3
    /\ guide = markdown U x3
    /\ t = (t0 ++ [c1; c2; c3; c4; c5; c6])%list.
Proof.
  intros [o r rd t1 sm t2 fl t3 an t4 gd t5 P O1 O2 O3 O4 O5].
  pose proof (ok_log _ _ _ _ O1) as E1. rewrite get_github_readme_call in E1.
  destruct (summarize_readme_ok _ _ _ _ _ O2) as [F2 _].
  destruct (analyze_structure_ok _ _ _ _ _ O4) as [F4 _].
  unfold falsy, truthy_str in F2, F4. rewrite negb_involutive in F2, F4.
  apply String.eqb_neq in F2, F4.
  apply summarize_readme_call in O2 as (x1 & G1 & -> & E2).
  pose proof (get_github_file_structure_calls _ _ _ _ _ _ O3)
    as (info & body & branch & R & J & S & E3).
  apply analyze_structure_call in O4 as (x2 & G2 & -> & E4).
  apply get_setup_guide_call in O5 as (x3 & G3 & -> & E5).
  exists o, r, rd, fl, info, body, branch, x1, x2, x3. intros c1 c2 c3 c4 c5 c6.
  assert (T1 : t1 = (t0 ++ [c1])%list) by now symmetry.
  assert (T2 : t2 = (t0 ++ [c1; c2])%list)
    by (rewrite E2, T1, <- app_assoc; reflexivity).
  assert (T3 : t3 = (t0 ++ [c1; c2; c3; c4])%list)
    by (rewrite E3, T2, <- app_assoc; reflexivity).
  assert (T4 : t4 = (t0 ++ [c1; c2; c3; c4; c5])%list)
    by (rewrite E4, T3, <- app_assoc; reflexivity).
  assert (T5 : t5 = (t0 ++ [c1; c2; c3; c4; c5; c6])%list)
    by (rewrite E5, T4, <- app_assoc; reflexivity).
  rewrite T1 in O1, G1. rewrite T2 in O3, R. rewrite T3 in O3, G2. rewrite T4 in G3.
  repeat split; assumption || apply P || reflexivity.
Qed.

Lemma successful_analysis_calls_witness :
  exists t, succeeds sample_upstream "https://github.com/octo/atlas" []
              "<p>Atlas</p>" "<p>Atlas</p>" "<p>Atlas</p>" t
            /\ List.length t = 6%nat.
Proof.
  assert (P : parsed "https://github.com/octo/atlas" (Some "octo") (Some "atlas"))
    by (repeat split; discriminate).
  eexists. split.
  - eapply all_steps; [exact P | cbv; reflexivity ..].
  - match goal with
    | |- List.length ?t = _ =>
        assert (S : succeeds sample_upstream "https://github.com/octo/atlas" []
                      "<p>Atlas</p>" "<p>Atlas</p>" "<p>Atlas</p>" t)
          by (eapply all_steps; [exact P | cbv; reflexivity ..])
    end.
    destruct (successful_analysis_calls _ _ _ _ _ _ _ S)
      as (o & r & rd & fl & info & body & br & x1 & x2 & x3 & Facts).
    cbn zeta in Facts.
    destruct Facts as (_ & _ & _ & _ & _ & _ & _ & _ & _ & _ & _ & _ & _ & _ & E).
    apply (f_equal (@List.length call)) in E. exact E.
Defined.

(* ------------------------------------------------------------------ *)
(** ** Discipline of the outbound calls *)

Section Orderly.
Variable U : upstream.

Lemma orderly_ret {A} (x : A) : orderly U (ret x).
Proof. intros t H. exact H. Qed.

Lemma orderly_bind {A B} (c : M A) (f : A -> M B) :
  orderly U c -> (forall x, orderly U (f x)) -> orderly U (bind c f).
Proof.
  intros Hc Hf t H. unfold bind. specialize (Hc t H).
  destruct (c t) as [x t1]. now apply Hf.
Qed.

Lemma orderly_http_get url timeout :
  String.prefix api_host url = true -> timeout = 10 \/ timeout = 15 ->
  orderly U (http_get U url timeout).
Proof.
  intros Hu Ht t H. unfold http_get. cbn [snd].
  apply Forall_app. split; [exact H|]. constructor; [|constructor].
  cbn. now repeat split.
Qed.

Lemma orderly_model_text prompt : orderly U (model_text U prompt).
Proof.
  intros t H. unfold model_text. cbn [snd].
  apply Forall_app. split; [exact H|]. now repeat constructor.
Qed.

Local Ltac orderly_steps :=
  repeat first
    [ apply orderly_ret
    | apply orderly_model_text
    | apply orderly_http_get; [reflexivity | (now left) || (now right)]
    | apply orderly_bind; [|intros ?]
    | match goal with
      | |- orderly _ (if ?b then _ else _) => destruct b
      | |- orderly _ (let '(_, _) := ?x in _) => destruct x
      | |- orderly _ (match ?x with _ => _ end) => destruct x
      end ].

Lemma orderly_get_github_readme o r : orderly U (get_github_readme U o r).
Proof. unfold get_github_readme. orderly_steps. Qed.

Lemma orderly_summarize_readme v : orderly U (summarize_readme_with_gemini U v).
Proof. unfold summarize_readme_with_gemini. orderly_steps. Qed.

Lemma orderly_get_github_file_structure o r :
  orderly U (get_github_file_structure U o r).
Proof.
  unfold get_github_file_structure.
  apply orderly_bind; [apply orderly_http_get; [reflexivity | now left]|].
  intros got.
  match goal with |- orderly _ (match ?x with _ => _ end) => destruct x end;
    [apply orderly_ret|].
  apply orderly_bind; [apply orderly_http_get; [reflexivity | now right]|].
  intros got'. apply orderly_ret.
Qed.

Lemma orderly_analyze_structure v : orderly U (analyze_structure_with_gemini U v).
Proof. unfold analyze_structure_with_gemini. orderly_steps. Qed.

Lemma orderly_get_setup_guide v w : orderly U (get_setup_guide_with_gemini U v w).
Proof. unfold get_setup_guide_with_gemini. orderly_steps. Qed.

Lemma orderly_analyze_repo_route data : orderly U (analyze_repo_route U data).
Proof.
  unfold analyze_repo_route.
  destruct (dict_get data "repo_url" JNull) as [e|repo_url]; [apply orderly_ret|].
  destruct (negb (truthy repo_url)); [apply orderly_ret|].
  destruct repo_url; try apply orderly_ret.
  destruct (parse_github_url s) as [o r].
  destruct (falsy o || falsy r); [apply orderly_ret|].
  apply orderly_bind; [apply orderly_get_github_readme|]. intros [rc e1].
  destruct (truthy_str e1); [apply orderly_ret|].
  apply orderly_bind; [apply orderly_summarize_readme|]. intros [sm e2].
  destruct (truthy_str e2); [apply orderly_ret|].
  apply orderly_bind; [apply orderly_get_github_file_structure|]. intros [fl e3].
  destruct (truthy_str e3); [apply orderly_ret|].
  apply orderly_bind; [apply orderly_analyze_structure|]. intros [an e4].
  destruct (truthy_str e4); [apply orderly_ret|].
  apply orderly_bind; [apply orderly_get_setup_guide|]. intros [gd e5].
  destruct (truthy_str e5); apply orderly_ret.
Qed.

Lemma orderly_trending_repos_route q now : orderly U (trending_repos_route U q now).
Proof.
  unfold trending_repos_route.
  destruct (now - timedelta_days 730 <? 0); [apply orderly_ret|].
  apply orderly_bind; [|intros got; apply orderly_ret].
  apply orderly_http_get; [reflexivity | now right].
Qed.

Lemma handle_orderly r sv :
  Forall (disciplined U) (log sv) -> Forall (disciplined U) (log (snd (handle U r sv))).
Proof.
  intros H. destruct r as [data | q now | fault | data now fault]; cbn [handle].
  - pose proof (orderly_analyze_repo_route data (log sv) H) as O.
    now destruct (analyze_repo_route U data (log sv)).
  - pose proof (orderly_trending_repos_route q now (log sv) H) as O.
    now destruct (trending_repos_route U q now (log sv)).
  - exact H.
  - now destruct (add_post data now fault (store sv)).
Qed.

End Orderly.

(** X17.  Whatever requests are served, every GitHub request the service
    has made goes to https://api.github.com/, carries the bearer token and
    the Accept header and has a timeout of 10 or 15 seconds; requests to
    list or create posts make no outbound call at all. *)
Theorem outbound_calls_are_disciplined U :
  (forall sv, reachable U sv -> Forall (disciplined U) (log sv))
  /\ (forall r sv,
        (exists fault, r = GetPosts fault)
        \/ (exists data now fault, r = AddPost data now fault) ->
        log (snd (handle U r sv)) = log sv).
Proof.
  split.
  - intros sv [rs ->].
    assert (G : forall sv0, Forall (disciplined U) (log sv0) ->
                            Forall (disciplined U) (log (serve U rs sv0))).
    { induction rs as [|r rs IH]; intros sv0 H; cbn [serve]; [exact H|].
      apply IH. now apply handle_orderly. }
    apply G. constructor.
  - intros r sv [[fault ->] | (data & now & fault & ->)]; cbn [handle]; [reflexivity|].
    now destruct (add_post data now fault (store sv)).
Qed.

Lemma outbound_calls_are_disciplined_witness :
  let sv := serve sample_upstream
              [Analyze sample_body; Trending (Some "ml") sample_now] boot in
  List.length (log sv) = 7%nat /\ Forall (disciplined sample_upstream) (log sv).
Proof.
  intros sv. split; [vm_compute; reflexivity|].
  apply (proj1 (outbound_calls_are_disciplined sample_upstream)). now eexists.
Defined.

(* ------------------------------------------------------------------ *)
(** ** Bounds and round trips *)






Lemma fails_at_status U url t0 st status e t :
  fails_at U url t0 st status e t ->
  (status = 400 /\ t = t0) \/ (status = 500 /\ extends t0 t 1 6).
Proof.
  intros F.
  pose proof (fails_at_log U url t0 st status e t F) as Up.
  destruct F as
    [ E | o r Hu Hp Hf | o r e t1 P K1 | o r rd t1 e t2 P O1 K2
    | o r rd t1 sm t2 e t3 P O1 O2 K3
    | o r rd t1 sm t2 fl t3 e t4 P O1 O2 O3 K4
    | o r rd t1 sm t2 fl t3 an t4 e t5 P O1 O2 O3 O4 K5 ];
    [now left | now left | right; split; [reflexivity|] ..].
  all: pose proof (get_github_readme_log U o r t0) as L1.
  all: try (rewrite (ko_log _ _ _ _ K1) in L1).
  all: try (rewrite (ok_log _ _ _ _ O1) in L1).
  all: destruct L1 as (n1 & -> & N1); destruct Up as (n & E & N).
  all: exists n; split; [exact E|].
  - apply app_inv_head in E. subst n. cbn [calls_up_to] in N. lia.
  - destruct (summarize_readme_log U (Some rd) (t0 ++ n1)%list) as (n2 & E2 & _).
    rewrite (ko_log _ _ _ _ K2), E, <- app_assoc in E2. apply app_inv_head in E2.
    subst n. rewrite !length_app in *. cbn [calls_up_to] in N. lia.
  - destruct (summarize_readme_log U (Some rd) (t0 ++ n1)%list) as (n2 & E2 & _).
    rewrite (ok_log _ _ _ _ O2) in E2.
    destruct (get_github_file_structure_log U o r t2) as (n3 & E3 & _).
    rewrite (ko_log _ _ _ _ K3), E, E2, <- !app_assoc in E3. apply app_inv_head in E3.
    subst n. rewrite !length_app in *. cbn [calls_up_to] in N. lia.
  - destruct (summarize_readme_log U (Some rd) (t0 ++ n1)%list) as (n2 & E2 & _).
    rewrite (ok_log _ _ _ _ O2) in E2.
    destruct (get_github_file_structure_log U o r t2) as (n3 & E3 & _).
    rewrite (ok_log _ _ _ _ O3) in E3.
    destruct (analyze_structure_log U (Some fl) t3) as (n4 & E4 & _).
    rewrite (ko_log _ _ _ _ K4), E, E3, E2, <- !app_assoc in E4. apply app_inv_head in E4.
    subst n. rewrite !length_app in *. cbn [calls_up_to] in N. lia.
  - destruct (summarize_readme_log U (Some rd) (t0 ++ n1)%list) as (n2 & E2 & _).
    rewrite (ok_log _ _ _ _ O2) in E2.
    destruct (get_github_file_structure_log U o r t2) as (n3 & E3 & _).
    rewrite (ok_log _ _ _ _ O3) in E3.
    destruct (analyze_structure_log U (Some fl) t3) as (n4 & E4 & _).
    rewrite (ok_log _ _ _ _ O4) in E4.
    destruct (get_setup_guide_log U (Some rd) (Some fl) t4) as (n5 & E5 & _).
    rewrite (ko_log _ _ _ _ K5), E, E4, E3, E2, <- !app_assoc in E5.
    apply app_inv_head in E5.
    subst n. rewrite !length_app in *. cbn [calls_up_to] in N. lia.
Qed.

(** X20.  What is sent back tells how far an analysis went, whatever the
    upstreams answer.  Either the handler raises (a body that is not an
    object, a repo_url that is not a string), or it answers 400: in both
    cases no upstream call was made.  Or it answers 500 after at least the
    README request and at most six calls, or 200 after all six calls.  No
    other status is ever sent. *)
Theorem analyze_status_and_calls U data t0 :
  let resp := fst (analyze_repo_route U data t0) in
  let t := snd (analyze_repo_route U data t0) in
  (exists e, resp = Unhandled e /\ t = t0)
  \/ (exists body, resp = Jsonify body 400 /\ t = t0)
  \/ (exists body, resp = Jsonify body 500 /\ extends t0 t 1 6)
  \/ (exists body, resp = Jsonify body 200 /\ extends t0 t 6 6).
Proof.
  cbn zeta.
  destruct (dict_get data "repo_url" JNull) as [e|v] eqn:D.
  { left. unfold analyze_repo_route. rewrite D. now exists e. }
  assert (Str : (exists url, v = JStr url) \/ forall url, v <> JStr url).
  { destruct v; try (right; discriminate). left. now eexists. }
  destruct Str as [[url ->] | N].
  - destruct (analyze_fails_or_succeeds U url t0)
      as [(st & status & e & t' & F) | (s & a & g & t' & S)].
    + rewrite (analyze_stops_at_failure U data url t0 D _ _ _ _ F). cbn [fst snd].
      destruct (fails_at_status _ _ _ _ _ _ _ F) as [[-> ->] | [-> X]].
      * right. left. now eexists.
      * right. right. left. now eexists.
    + rewrite (analyze_returns_documents U data url t0 D _ _ _ _ S). cbn [fst snd].
      right. right. right. eexists. split; [reflexivity|].
      exact (succeeds_log _ _ _ _ _ _ _ S).
  - assert (N' : forall url, dict_get data "repo_url" JNull <> inr (JStr url)).
    { intros url. rewrite D. intros [= ->]. now apply (N url). }
    destruct (analyze_without_url U data t0 N') as [L [[e R] | R]].
    + left. exists e. split; [exact R | exact L].
    + right. left. eexists. split; [exact R | exact L].
Qed.
